(** * SentinelID: the streaming control plane of the tab manager

    A shallow embedding of the WebRTC streaming logic of
    [frontend/src/app/dashboard/aliases/page.tsx] (component [TabManager]):
    the refs and React state the callbacks share, the callbacks themselves
    ([stopStream], [createPeerConnection] with its data-channel handlers,
    [startStream] with its peer-connection handlers, [handleVideoClick],
    [sendScroll], [sendType], [debounce]) and the JavaScript timer queue they
    schedule their work on.

    Every callback is a computation in a small state-and-exception monad
    that also records the calls made to the outside world (toasts, debug
    log lines, data-channel sends, HTTP posts, [close] calls).  An [async]
    function is cut at its [await]s: the part that runs synchronously is one
    computation, and the phase in which the activation waits is stored with
    the connection it created.

    The session list of the same component ([fetchSessions],
    [createSession], [closeSession], [restoreSession], [selected]) and the
    component [AliasesPage] of the same file, with its [aliasApi] and
    [normalizeInputToAlias], are embedded as functions of the outcomes of
    the requests they await: modules [Sessions], [Aliases] and [Normalize]. *)

From stdpp Require Import base option list strings pretty gmap.
From Stdlib Require Import ZArith Lia Ascii.

Set Default Proof Using "Type".

Local Open Scope Z_scope.
Local Open Scope string_scope.
Local Open Scope list_scope.

(** ** JSON values and objects *)

Inductive JVal : Type :=
  | JUndefined
  | JNull
  | JBool (b : bool)
  | JNum (n : Z)
  | JStr (s : string).

Global Instance JVal_eq_dec : EqDecision JVal.
Proof. solve_decision. Defined.

(** An object is its list of fields; reading a field that is not there
    gives [undefined]. *)
Definition JObject : Type := list (string * JVal).

Fixpoint field (o : JObject) (k : string) : JVal :=
  match o with
  | [] => JUndefined
  | (k', v) :: o' => if decide (k' = k) then v else field o' k
  end.

(** JavaScript truthiness, as used by [if (x)], [x && y] and [x || y]. *)
Definition truthy (v : JVal) : bool :=
  match v with
  | JUndefined | JNull => false
  | JBool b => b
  | JNum n => negb (Z.eqb n 0)
  | JStr s => negb (String.eqb s "")
  end.

(** What a template literal [`${v}`] prints. *)
Definition to_display (v : JVal) : string :=
  match v with
  | JUndefined => "undefined"
  | JNull => "null"
  | JBool true => "true"
  | JBool false => "false"
  | JNum n => pretty n
  | JStr s => s
  end.

(** ** The outside world *)

(** [candidate.toJSON()] is kept opaque. *)
Definition Candidate : Type := string.

Inductive ReadyState : Type := Connecting | Open | Closing | Closed.

Global Instance ReadyState_eq_dec : EqDecision ReadyState.
Proof. solve_decision. Defined.

Inductive ConnectionState : Type :=
  | CsNew | CsConnecting | CsConnected | CsDisconnected | CsFailed | CsClosed.

(** A thrown or rejected value: [`${err}`] and [err.message] (when it is an
    [Error]). *)
Record Err : Type := mkErr { err_display : string; err_message : option string }.

Definition Error (msg : string) : Err :=
  {| err_display := "Error: " +:+ msg; err_message := Some msg |}.

Inductive LogType : Type := Log | LogError | LogWarn.
Inductive ToastKind : Type :=
  | ToastSuccess | ToastError | ToastInfo | ToastWarning.

(** The two places that post to [/api/webrtc/candidate]. *)
Inductive PostSite : Type :=
  | FromHandler   (* pc.onicecandidate *)
  | FromBuffer.   (* the loop over pendingCandidatesRef.current *)

Global Instance PostSite_eq_dec : EqDecision PostSite.
Proof. solve_decision. Defined.

(** Calls that leave the component.  Objects created by
    [createPeerConnection] are named by a handle; the peer connection and
    the data channel made by one call share it. *)
Inductive Effect : Type :=
  | EffLog (ty : LogType) (msg : string)            (* addDebugLog *)
  | EffToast (k : ToastKind) (msg : string) (id : JVal)
  | EffSend (dc : nat) (msg : JObject)              (* dc.send(JSON.stringify(msg)) *)
  | EffCreateOffer (pc : nat)
  | EffSetLocalDescription (pc : nat)
  | EffPostOffer (session_id : string)              (* POST /api/webrtc/offer *)
  | EffPostCandidate (site : PostSite) (pc_id : JVal) (cand : Candidate)
  | EffSetRemoteDescription (pc : nat)
  | EffGetStats (pc : nat)
  | EffCloseDc (dc : nat)
  | EffClosePc (pc : nat)
  | EffStopTracks (stream : nat).

Global Instance LogType_eq_dec : EqDecision LogType.
Proof. solve_decision. Defined.
Global Instance ToastKind_eq_dec : EqDecision ToastKind.
Proof. solve_decision. Defined.
Global Instance Effect_eq_dec : EqDecision Effect.
Proof. solve_decision. Defined.

(** What the platform answers when a callback asks: the clock, the state of
    a data channel, and whether a cleanup call throws. *)
Record Platform : Type := mkPlatform {
  now : Z;                                  (* Date.now() *)
  readyState : nat -> ReadyState;           (* dc.readyState *)
  dcCloseThrows : nat -> option Err;        (* dc.close() *)
  pcCloseThrows : nat -> option Err;        (* pc.close() *)
  trackStopThrows : nat -> option Err       (* track.stop() *)
}.

(** ** Component state *)

Record WebRTCConfig : Type := mkWebRTC {
  pc : option nat;
  dc : option nat;
  sessionId : option string;
  reconnectAttempts : Z
}.

Record StreamQuality : Type := mkQuality { fps : Z; bitrate : Z }.

Record ClickIndicator : Type := mkIndicator {
  ci_id : string; ci_x : Z; ci_y : Z; ci_timestamp : Z
}.

(** Where an activation of [startStream] is waiting. *)
Inductive Phase : Type :=
  | AwaitCreateOffer
  | AwaitSetLocalDescription
  | AwaitOffer
  | AwaitCandidatePost (pc_id : JVal) (arr : nat) (next : nat)
  | AwaitSetRemoteDescription
  | Finished.

(** One call of [createPeerConnection(sessionId)]: the session its closures
    captured, the [_pcId] property put on the peer connection, and the
    phase of the [startStream] activation that made it. *)
Record Conn : Type := mkConn {
  c_session : string;
  c_pcId : JVal;
  c_phase : Phase
}.

Inductive Callback : Type :=
  | CbReconnect (session : string)     (* the timeout set by dc.onclose *)
  | CbStats (pc : nat)                 (* the interval set by pc.ontrack *)
  | CbRemoveIndicator (id : string)    (* the timeout set by handleVideoClick *)
  | CbScroll (dy : Z).                 (* the timeout set by debounce *)

Record Timer : Type := mkTimer {
  t_handle : nat;
  t_due : Z;
  t_delay : Z;
  t_repeat : bool;
  t_cb : Callback
}.

Record State : Type := mkState {
  (* refs *)
  webrtcRef : WebRTCConfig;
  pendingCandidatesRef : nat;              (* the array it points to *)
  reconnectTimeoutRef : option nat;
  statsIntervalRef : option nat;
  videoRef : option (option nat);          (* the element, and its srcObject *)
  (* React state *)
  isBackendConnected : bool;
  isStreaming : bool;
  streamQuality : StreamQuality;
  clickIndicators : list ClickIndicator;
  (* the [timer] variable of the debounce closure *)
  scrollTimer : option nat;
  (* the runtime: pending timers, connections made, arrays allocated *)
  timers : list Timer;
  nextTimer : nat;
  conns : list Conn;
  arrays : list (list Candidate)
}.

Definition set_webrtcRef (v : WebRTCConfig) (s : State) : State :=
  let '(mkState _ b c d e f g h i j k l m n) := s in mkState v b c d e f g h i j k l m n.
Definition set_pendingCandidatesRef (v : nat) (s : State) : State :=
  let '(mkState a _ c d e f g h i j k l m n) := s in mkState a v c d e f g h i j k l m n.
Definition set_reconnectTimeoutRef (v : option nat) (s : State) : State :=
  let '(mkState a b _ d e f g h i j k l m n) := s in mkState a b v d e f g h i j k l m n.
Definition set_statsIntervalRef (v : option nat) (s : State) : State :=
  let '(mkState a b c _ e f g h i j k l m n) := s in mkState a b c v e f g h i j k l m n.
Definition set_videoRef (v : option (option nat)) (s : State) : State :=
  let '(mkState a b c d _ f g h i j k l m n) := s in mkState a b c d v f g h i j k l m n.
Definition set_isBackendConnected (v : bool) (s : State) : State :=
  let '(mkState a b c d e _ g h i j k l m n) := s in mkState a b c d e v g h i j k l m n.
Definition set_isStreaming (v : bool) (s : State) : State :=
  let '(mkState a b c d e f _ h i j k l m n) := s in mkState a b c d e f v h i j k l m n.
Definition set_streamQuality (v : StreamQuality) (s : State) : State :=
  let '(mkState a b c d e f g _ i j k l m n) := s in mkState a b c d e f g v i j k l m n.
Definition set_clickIndicators (v : list ClickIndicator) (s : State) : State :=
  let '(mkState a b c d e f g h _ j k l m n) := s in mkState a b c d e f g h v j k l m n.
Definition set_scrollTimer (v : option nat) (s : State) : State :=
  let '(mkState a b c d e f g h i _ k l m n) := s in mkState a b c d e f g h i v k l m n.
Definition set_timers (v : list Timer) (s : State) : State :=
  let '(mkState a b c d e f g h i j _ l m n) := s in mkState a b c d e f g h i j v l m n.
Definition set_nextTimer (v : nat) (s : State) : State :=
  let '(mkState a b c d e f g h i j k _ m n) := s in mkState a b c d e f g h i j k v m n.
Definition set_conns (v : list Conn) (s : State) : State :=
  let '(mkState a b c d e f g h i j k l _ n) := s in mkState a b c d e f g h i j k l v n.
Definition set_arrays (v : list (list Candidate)) (s : State) : State :=
  let '(mkState a b c d e f g h i j k l m _) := s in mkState a b c d e f g h i j k l m v.

(** The component as first rendered. *)
Definition initial : State :=
  {| webrtcRef := mkWebRTC None None None 0;
     pendingCandidatesRef := 0%nat;
     reconnectTimeoutRef := None;
     statsIntervalRef := None;
     videoRef := None;
     isBackendConnected := false;
     isStreaming := false;
     streamQuality := mkQuality 0 0;
     clickIndicators := [];
     scrollTimer := None;
     timers := [];
     nextTimer := 1%nat;
     conns := [];
     arrays := [[]] |}.

(** ** The monad of callbacks *)

Inductive Exc (A : Type) : Type :=
  | Val (a : A)
  | Thrown (e : Err).
Global Arguments Val {A} a.
Global Arguments Thrown {A} e.

Record Res (A : Type) : Type := mkRes {
  res_val : Exc A;
  res_state : State;
  res_eff : list Effect
}.
Global Arguments mkRes {A} _ _ _.
Global Arguments res_val {A} _.
Global Arguments res_state {A} _.
Global Arguments res_eff {A} _.

Definition M (A : Type) : Type := State -> Res A.

Definition ret {A} (a : A) : M A := fun s => mkRes (Val a) s [].

Definition bind {A B} (m : M A) (f : A -> M B) : M B := fun s =>
  match m s with
  | mkRes (Val a) s1 e1 =>
      match f a s1 with
      | mkRes v s2 e2 => mkRes v s2 (e1 ++ e2)
      end
  | mkRes (Thrown x) s1 e1 => mkRes (Thrown x) s1 e1
  end.

Declare Scope js_scope.
Delimit Scope js_scope with js.
Notation "x <- m ;; k" := (bind m (fun x => k))
  (at level 100, m at next level, right associativity) : js_scope.
Notation "m ;;; k" := (bind m (fun _ => k))
  (at level 100, right associativity) : js_scope.
Local Open Scope js_scope.

Definition get : M State := fun s => mkRes (Val s) s [].
Definition gets {A} (f : State -> A) : M A := fun s => mkRes (Val (f s)) s [].
Definition modify (f : State -> State) : M unit := fun s => mkRes (Val tt) (f s) [].
Definition emit (e : Effect) : M unit := fun s => mkRes (Val tt) s [e].
Definition throw {A} (e : Err) : M A := fun s => mkRes (Thrown e) s [].
Definition skip : M unit := ret tt.

(** [try { m } catch (e) { h e }] *)
Definition try_catch {A} (m : M A) (h : Err -> M A) : M A := fun s =>
  match m s with
  | mkRes (Val a) s1 e1 => mkRes (Val a) s1 e1
  | mkRes (Thrown x) s1 e1 =>
      match h x s1 with
      | mkRes v s2 e2 => mkRes v s2 (e1 ++ e2)
      end
  end.

(** A platform call that may throw. *)
Definition call (e : Effect) (throws : option Err) : M unit :=
  emit e ;;;
  match throws with
  | Some x => throw x
  | None => skip
  end.

(** ** Small helpers of the component *)

Definition addDebugLog (ty : LogType) (msg : string) : M unit :=
  emit (EffLog ty msg).

(** [toast.success], [toast.error], [toast.info] and [toast.warning]; the
    pictograms that open some of the messages are left out of the text. *)
Definition toast (k : ToastKind) (msg : string) : M unit :=
  emit (EffToast k msg JUndefined).

(** ... with the option [{ id }]. *)
Definition toast_id (k : ToastKind) (msg : string) (id : JVal) : M unit :=
  emit (EffToast k msg id).

(** *** Numbers

    A number of the source is a double.  The quality monitor computes
    [Math.round(bytesReceived * 8 / 1000)] on one: the product by 8 is
    exact, the division is rounded to the nearest double, ties to even, and
    [Math.round] takes the nearest integer of that, ties upwards.

    A positive double is [m * 2^e] with [m < 2^53] and [e >= -1074].  To
    keep the exponents positive they are counted from [2^-1100]: the value
    of a double is kept as the integer [scale] times as large. *)
Definition scale : Z := 2 ^ 1100.

(** The integer nearest to [num / den], ties to the even one. *)
Definition round_half_even (num den : Z) : Z :=
  let q := num / den in
  let r := num mod den in
  if Z.ltb (2 * r) den then q
  else if Z.ltb den (2 * r) then q + 1
  else if Z.even q then q else q + 1.

(** The double nearest to [n / d] for integers [n >= 0] and [d > 0]: 53
    bits of the quotient are kept, or fewer where the exponent would go
    below -1074. *)
Definition double_pos (n d : Z) : Z :=
  let x := n * scale in
  let e := Z.max (Z.log2 (x / d) - 52) 26 in
  round_half_even x (d * 2 ^ e) * 2 ^ e.

(** [n / d] *)
Definition double_div (n d : Z) : Z :=
  if Z.ltb n 0 then - double_pos (- n) d else double_pos n d.

(** [Math.round(v)]: the largest integer not above [v + 1/2]. *)
Definition Math_round (v : Z) : Z := (2 * v + scale) / (2 * scale).

Global Arguments double_pos : simpl never.
Global Arguments double_div : simpl never.
Global Arguments Math_round : simpl never.

(** *** Timers

    Handles are positive, so a stored handle is truthy.  [setTimeout] and
    [setInterval] draw from the same supply and [clearTimeout] and
    [clearInterval] are the same operation. *)
Definition setTimer (P : Platform) (repeat : bool) (cb : Callback) (delay : Z)
  : M nat :=
  h <- gets nextTimer ;;
  modify (fun s =>
    set_nextTimer (S h)
      (set_timers (timers s ++ [mkTimer h (now P + delay) delay repeat cb]) s)) ;;;
  ret h.

Definition setTimeout (P : Platform) (cb : Callback) (delay : Z) : M nat :=
  setTimer P false cb delay.

Definition setInterval (P : Platform) (cb : Callback) (delay : Z) : M nat :=
  setTimer P true cb delay.

Definition clearTimeout (h : nat) : M unit :=
  modify (fun s => set_timers (filter (fun t => t_handle t <> h) (timers s)) s).

Definition clearInterval (h : nat) : M unit := clearTimeout h.

(** *** Arrays and connections *)

(** [[]]: a new empty array. *)
Definition newArray : M nat :=
  a <- gets (fun s => length (arrays s)) ;;
  modify (fun s => set_arrays (arrays s ++ [[]]) s) ;;;
  ret a.

(** [arr.push(c)] *)
Definition push (arr : nat) (c : Candidate) : M unit :=
  modify (fun s => set_arrays (alter (fun l => l ++ [c]) arr (arrays s)) s).

Definition set_phase (h : nat) (p : Phase) : M unit :=
  modify (fun s =>
    set_conns (alter (fun c => mkConn (c_session c) (c_pcId c) p) h (conns s)) s).

(** [(pc as any)._pcId = v] *)
Definition set_pcId (h : nat) (v : JVal) : M unit :=
  modify (fun s =>
    set_conns (alter (fun c => mkConn (c_session c) v (c_phase c)) h (conns s)) s).

(** ** stopStream *)

Definition stopStream (P : Platform) : M unit :=
  addDebugLog Log "Stopping stream" ;;;
  r <- gets reconnectTimeoutRef ;;
  match r with
  | Some h => clearTimeout h ;;; modify (set_reconnectTimeoutRef None)
  | None => skip
  end ;;;
  i <- gets statsIntervalRef ;;
  match i with
  | Some h => clearInterval h ;;; modify (set_statsIntervalRef None)
  | None => skip
  end ;;;
  w <- gets webrtcRef ;;
  try_catch
    (match dc w with
     | Some d => call (EffCloseDc d) (dcCloseThrows P d)
     | None => skip
     end ;;;
     match pc w with
     | Some p => call (EffClosePc p) (pcCloseThrows P p)
     | None => skip
     end ;;;
     v <- gets videoRef ;;
     match v with
     | Some (Some stream) =>
         call (EffStopTracks stream) (trackStopThrows P stream) ;;;
         modify (set_videoRef (Some None))
     | _ => skip
     end)
    (fun e => addDebugLog LogWarn ("stopStream cleanup warning: " +:+ err_display e)) ;;;
  modify (set_webrtcRef (mkWebRTC None None None 0)) ;;;
  modify (set_isStreaming false) ;;;
  modify (set_streamQuality (mkQuality 0 0)).

(** ** createPeerConnection and the data-channel handlers *)

Definition createPeerConnection (sessionId : string) : M nat :=
  addDebugLog Log ("Creating peer connection for session " +:+ sessionId) ;;;
  h <- gets (fun s => length (conns s)) ;;
  modify (fun s => set_conns (conns s ++ [mkConn sessionId JUndefined Finished]) s) ;;;
  ret h.

Definition ping (P : Platform) : JObject :=
  [("type", JStr "ping"); ("timestamp", JNum (now P))].

(** [webrtcRef.current.reconnectAttempts = n] *)
Definition set_reconnectAttempts (n : Z) : M unit :=
  modify (fun s =>
    let w := webrtcRef s in
    set_webrtcRef (mkWebRTC (pc w) (dc w) (sessionId w) n) s).

Definition dc_onopen (P : Platform) (h : nat) : M unit :=
  addDebugLog Log "Data channel opened successfully" ;;;
  toast ToastSuccess "Control channel established" ;;;
  modify (set_isStreaming true) ;;;
  set_reconnectAttempts 0 ;;;
  emit (EffSend h (ping P)).

(** [event.data] after [JSON.parse]; a parse failure, or a parsed value
    whose fields cannot be read, is the exception it raises. *)
Inductive Parsed : Type :=
  | ParseOk (data : JObject)
  | ParseThrows (e : Err).

Definition dc_onmessage (event_data : Parsed) : M unit :=
  try_catch
    (match event_data with
     | ParseThrows e => throw e
     | ParseOk data =>
         if decide (field data "type" = JStr "pong") then
           addDebugLog Log "Data channel ping-pong successful"
         else if decide (field data "type" = JStr "click_response") then
           if truthy (field data "success") then
             addDebugLog Log ("Click successful: " +:+ to_display (field data "clickId")) ;;;
             toast_id ToastSuccess "Click successful" (field data "clickId")
           else
             addDebugLog LogError
               ("Click failed: " +:+ to_display (field data "clickId") +:+ " - "
                +:+ to_display (field data "error")) ;;;
             toast_id ToastError ("Click failed: " +:+ to_display (field data "error"))
               (field data "clickId")
         else skip
     end)
    (fun err =>
       addDebugLog LogError ("Error parsing data channel message: " +:+ err_display err)).

(** The delay of the reconnect timeout, in milliseconds. *)
Definition reconnectDelay (attempts : Z) : Z := 2000 * attempts.

Definition dc_onclose (P : Platform) (sessionId : string) : M unit :=
  addDebugLog LogWarn "Data channel closed" ;;;
  toast ToastError "Control channel closed" ;;;
  modify (set_isStreaming false) ;;;
  w <- gets webrtcRef ;;
  if Z.ltb (reconnectAttempts w) 3 then
    h <- setTimeout P (CbReconnect sessionId) (reconnectDelay (reconnectAttempts w)) ;;
    modify (set_reconnectTimeoutRef (Some h))
  else
    toast ToastError "Failed to reconnect after multiple attempts".

Definition dc_onerror (err : Err) : M unit :=
  addDebugLog LogError ("Data channel error: " +:+ err_display err) ;;;
  toast ToastError "Control channel error".

(** ** startStream

    [startStream] is [async]: it runs up to its first [await] when called
    and is resumed when the awaited promise settles. *)

Inductive Settled : Type :=
  | Fulfilled (data : JObject)   (* for an axios call, [res.data] *)
  | Rejected (e : Err).

(** The [catch] block of [startStream]. *)
Definition startStream_catch (P : Platform) (err : Err) : M unit :=
  addDebugLog LogError ("Failed to start stream: " +:+ err_display err) ;;;
  toast ToastError
    ("Failed to start stream: " +:+ default "Unknown error" (err_message err)) ;;;
  stopStream P.

(** Code of the activation that made connection [h], inside its [try]. *)
Definition in_try (P : Platform) (h : nat) (body : M unit) : M unit :=
  try_catch body (fun e => set_phase h Finished ;;; startStream_catch P e).

(** The part of [startStream] up to [await pc.createOffer(...)], as one
    render makes it: [useCallback] keeps, with the function, the
    [isBackendConnected] that render saw, here [connected]. *)
Definition startStream_of (connected : bool) (P : Platform) (sessionId : string)
  : M unit :=
  if negb connected then
    toast ToastError "Backend not connected"
  else
    try_catch
      (addDebugLog Log ("Starting stream for session " +:+ sessionId) ;;;
       stopStream P ;;;
       h <- createPeerConnection sessionId ;;
       modify (set_webrtcRef (mkWebRTC (Some h) (Some h) (Some sessionId) 0)) ;;;
       v <- gets videoRef ;;
       match v with
       | Some _ => modify (set_videoRef (Some None))
       | None => skip
       end ;;;
       a <- newArray ;;
       modify (set_pendingCandidatesRef a) ;;;
       emit (EffCreateOffer h) ;;;
       set_phase h AwaitCreateOffer)
      (startStream_catch P).

(** The [startStream] of the latest render, which the stream effect calls:
    [isBackendConnected] is among its dependencies, so its flag is the
    current one. *)
Definition startStream (P : Platform) (sessionId : string) : M unit :=
  connected <- gets isBackendConnected ;;
  startStream_of connected P sessionId.

(** [pc.onicecandidate]; [None] is the null candidate that ends gathering. *)
Definition pc_onicecandidate (h : nat) (candidate : option Candidate) : M unit :=
  cs <- gets conns ;;
  let pcId := from_option c_pcId JUndefined (cs !! h) in
  match candidate with
  | Some c =>
      if truthy pcId then emit (EffPostCandidate FromHandler pcId c)
      else a <- gets pendingCandidatesRef ;; push a c
  | None => skip
  end.

(** The [.catch] of the post made by [pc.onicecandidate]. *)
Definition candidate_post_failed (err : Err) : M unit :=
  addDebugLog LogError ("Failed to send ICE candidate: " +:+ err_display err).

(** One turn of [for (const cand of pendingCandidatesRef.current)]: the
    iterator reads the array it was made for at its own index, and the code
    after the loop runs when the index is past the end. *)
Definition flush_loop (h : nat) (pc_id : JVal) (arr : nat) (i : nat) : M unit :=
  arrs <- gets arrays ;;
  match arrs !! arr ≫= (fun l => l !! i) with
  | Some cand =>
      emit (EffPostCandidate FromBuffer pc_id cand) ;;;
      set_phase h (AwaitCandidatePost pc_id arr (S i))
  | None =>
      a <- newArray ;;
      modify (set_pendingCandidatesRef a) ;;;
      emit (EffSetRemoteDescription h) ;;;
      set_phase h AwaitSetRemoteDescription
  end.

Definition resume (P : Platform) (h : nat) (r : Settled) : M unit :=
  cs <- gets conns ;;
  match cs !! h with
  | None => skip
  | Some c =>
      match c_phase c, r with
      | Finished, _ => skip
      | AwaitCandidatePost pc_id arr i, Fulfilled _ =>
          in_try P h (flush_loop h pc_id arr i)
      | AwaitCandidatePost pc_id arr i, Rejected err =>
          in_try P h
            (addDebugLog LogError
               ("Failed to send pending candidate: " +:+ err_display err) ;;;
             flush_loop h pc_id arr i)
      | _, Rejected e => in_try P h (throw e)
      | AwaitCreateOffer, Fulfilled _ =>
          in_try P h
            (emit (EffSetLocalDescription h) ;;;
             set_phase h AwaitSetLocalDescription)
      | AwaitSetLocalDescription, Fulfilled _ =>
          in_try P h
            (emit (EffPostOffer (c_session c)) ;;;
             set_phase h AwaitOffer)
      | AwaitOffer, Fulfilled data =>
          in_try P h
            (if truthy (field data "error")
             then throw (Error (to_display (field data "error")))
             else
               set_pcId h (field data "pc_id") ;;;
               a <- gets pendingCandidatesRef ;;
               flush_loop h (field data "pc_id") a 0)
      | AwaitSetRemoteDescription, Fulfilled _ => set_phase h Finished
      end
  end.

(** [pc.ontrack]; the argument is [ev.streams[0]]. *)
Definition pc_ontrack (P : Platform) (h : nat) (stream0 : option nat) : M unit :=
  v <- gets videoRef ;;
  match v, stream0 with
  | Some _, Some stream =>
      modify (set_videoRef (Some (Some stream))) ;;;
      addDebugLog Log "Video track received" ;;;
      i <- setInterval P (CbStats h) 2000 ;;
      modify (set_statsIntervalRef (Some i))
  | _, _ => skip
  end.

Definition connectionState_name (st : ConnectionState) : string :=
  match st with
  | CsNew => "new" | CsConnecting => "connecting" | CsConnected => "connected"
  | CsDisconnected => "disconnected" | CsFailed => "failed" | CsClosed => "closed"
  end.

Definition pc_onconnectionstatechange (P : Platform) (state : ConnectionState)
  : M unit :=
  addDebugLog Log ("Connection state: " +:+ connectionState_name state) ;;;
  match state with
  | CsConnected => toast ToastSuccess "Streaming connected"
  | CsFailed => toast ToastError "Streaming failed" ;;; stopStream P
  | CsDisconnected => toast ToastWarning "Streaming disconnected"
  | _ => skip
  end.

(** *** The quality monitor *)

Record Report : Type := mkReport {
  r_type : string;
  r_kind : string;
  framesPerSecond : option Z;
  bytesReceived : Z
}.

(** [report.framesPerSecond || 0] *)
Definition fps_of (r : Report) : Z := default 0 (framesPerSecond r).

(** [Math.round(report.bytesReceived * 8 / 1000)] *)
Definition bitrate_of (r : Report) : Z :=
  Math_round (double_div (bytesReceived r * 8) 1000).

Global Arguments bitrate_of : simpl never.

(** The body of the interval callback up to [await pc.getStats()]. *)
Definition stats_tick (h : nat) : M unit :=
  v <- gets videoRef ;;
  match v with
  | Some (Some _) => emit (EffGetStats h)
  | _ => skip
  end.

(** [stats.forEach(report => ...)], once [getStats] has resolved. *)
Fixpoint stats_forEach (stats : list Report) : M unit :=
  match stats with
  | [] => skip
  | report :: rest =>
      (if decide (r_type report = "inbound-rtp" /\ r_kind report = "video")
       then modify (set_streamQuality (mkQuality (fps_of report) (bitrate_of report)))
       else skip) ;;;
      stats_forEach rest
  end.

(** ** Input handlers *)

(** What [handleVideoClick] reads from the mouse event and the platform:
    the click position scaled to the 1280 x 720 page and rounded, the
    position inside the element, and the suffix
    [Math.random().toString(36).substr(2, 9)]. *)
Record ClickEvent : Type := mkClick {
  click_x : Z;
  click_y : Z;
  click_offsetX : Z;
  click_offsetY : Z;
  click_random : string
}.

Definition clickId (P : Platform) (e : ClickEvent) : string :=
  "click-" +:+ pretty (now P) +:+ "-" +:+ click_random e.

Definition click_message (P : Platform) (e : ClickEvent) : JObject :=
  [("type", JStr "click"); ("x", JNum (click_x e)); ("y", JNum (click_y e));
   ("id", JStr (clickId P e)); ("timestamp", JNum (now P))].

Definition handleVideoClick (P : Platform) (e : ClickEvent) : M unit :=
  w <- gets webrtcRef ;;
  match dc w with
  | Some d =>
      if decide (readyState P d <> Open) then
        toast ToastError "Control channel not ready"
      else
        let indicatorId := "indicator-" +:+ pretty (now P) in
        let indicator :=
          mkIndicator indicatorId (click_offsetX e) (click_offsetY e) (now P) in
        modify (fun s => set_clickIndicators (clickIndicators s ++ [indicator]) s) ;;;
        _ <- setTimeout P (CbRemoveIndicator indicatorId) 1000 ;;
        emit (EffSend d (click_message P e)) ;;;
        addDebugLog Log
          ("Click sent: " +:+ clickId P e +:+ " at (" +:+ pretty (click_x e)
           +:+ ", " +:+ pretty (click_y e) +:+ ")")
  | None => toast ToastError "Control channel not ready"
  end.

Definition remove_indicator (indicatorId : string) : M unit :=
  modify (fun s =>
    set_clickIndicators
      (filter (fun i => ci_id i <> indicatorId) (clickIndicators s)) s).

(** [debounce(fn, wait)]: the function it returns, with the closure's
    [timer] variable kept in [scrollTimer] ([sendScroll] is its only use). *)
Definition debounce (P : Platform) (fn : Z -> Callback) (wait : Z) (arg : Z)
  : M unit :=
  t <- gets scrollTimer ;;
  match t with
  | Some h => clearTimeout h
  | None => skip
  end ;;;
  h <- setTimeout P (fn arg) wait ;;
  modify (set_scrollTimer (Some h)).

Definition scroll_message (dy : Z) : JObject :=
  [("type", JStr "scroll"); ("deltaY", JNum dy)].

(** The function handed to [debounce]. *)
Definition sendScroll_fn (P : Platform) (dy : Z) : M unit :=
  w <- gets webrtcRef ;;
  match dc w with
  | Some d =>
      if decide (readyState P d <> Open) then
        toast ToastError "Control channel not ready"
      else
        emit (EffSend d (scroll_message dy)) ;;;
        addDebugLog Log ("Scroll sent: " +:+ pretty dy)
  | None => toast ToastError "Control channel not ready"
  end.

Definition sendScroll (P : Platform) (dy : Z) : M unit :=
  debounce P CbScroll 100 dy.

Definition type_message (text : string) : JObject :=
  [("type", JStr "type"); ("text", JStr text)].

Definition sendType (P : Platform) (text : string) : M unit :=
  w <- gets webrtcRef ;;
  match dc w with
  | Some d =>
      if decide (readyState P d <> Open) then
        toast ToastError "Control channel not ready"
      else
        emit (EffSend d (type_message text)) ;;;
        addDebugLog Log ("Type sent: " +:+ String.substring 0 50 text +:+ "...")
  | None => toast ToastError "Control channel not ready"
  end.

(** ** Health check *)

Definition checkHealth (r : Settled) : M unit :=
  match r with
  | Fulfilled data =>
      let isHealthy := bool_decide (field data "status" = JStr "healthy") in
      modify (set_isBackendConnected isHealthy) ;;;
      addDebugLog Log
        ("Backend health check: " +:+ (if isHealthy then "Connected" else "Disconnected"))
  | Rejected err =>
      modify (set_isBackendConnected false) ;;;
      addDebugLog LogError ("Backend health check failed: " +:+ err_display err)
  end.

(** ** The stream effect *)

(** The body of the effect that follows the selection (l.926-935), for the
    [selectedSession] of the render it belongs to; its clean-up is
    [stopStream]. *)
Definition stream_effect (P : Platform) (selectedSession : option string) : M unit :=
  match selectedSession with
  | Some sessionId =>
      if String.eqb sessionId "" then stopStream P else startStream P sessionId
  | None => stopStream P
  end.

(** A health request settles while [selectedSession] is selected.
    [checkHealth] sets the flag.  When that changes it, the component
    renders again and [startStream], which has the flag among its
    dependencies, is a new function; [startStream] is a dependency of the
    stream effect, so React cleans the effect up and runs it again. *)
Definition health_settled (P : Platform) (r : Settled)
    (selectedSession : option string) : M unit :=
  before <- gets isBackendConnected ;;
  checkHealth r ;;;
  after <- gets isBackendConnected ;;
  if Bool.eqb before after then skip
  else stopStream P ;;; stream_effect P selectedSession.

(** ** The event loop *)

(** The callback of the timeout set by [dc.onclose].  The closure belongs
    to [createPeerConnection], which [useCallback] keeps from the first
    render on (its one dependency, [addDebugLog], never changes).  The
    [startStream] it names is therefore the one the first render made, whose
    [isBackendConnected] is the initial value of that state. *)
Definition reconnect (P : Platform) (sessionId : string) : M unit :=
  w <- gets webrtcRef ;;
  set_reconnectAttempts (reconnectAttempts w + 1) ;;;
  toast ToastInfo
    ("Attempting to reconnect... (" +:+ pretty (reconnectAttempts w + 1) +:+ "/3)") ;;;
  startStream_of (isBackendConnected initial) P sessionId.

Definition run_callback (P : Platform) (cb : Callback) : M unit :=
  match cb with
  | CbReconnect sessionId => reconnect P sessionId
  | CbStats h => stats_tick h
  | CbRemoveIndicator indicatorId => remove_indicator indicatorId
  | CbScroll dy => sendScroll_fn P dy
  end.

(** The runtime runs the callback of a timer that is still pending and
    whose delay has passed; a timeout is then gone, an interval is set
    again. *)
Definition fire (P : Platform) (h : nat) : M unit :=
  ts <- gets timers ;;
  match List.find (fun t => bool_decide (t_handle t = h)) ts with
  | Some t =>
      if Z.leb (t_due t) (now P) then
        (if t_repeat t then
           modify (fun s =>
             set_timers
               (map (fun t' =>
                       if bool_decide (t_handle t' = h)
                       then mkTimer h (now P + t_delay t') (t_delay t') true (t_cb t')
                       else t')
                    (timers s)) s)
         else clearTimeout h) ;;;
        run_callback P (t_cb t)
      else skip
  | None => skip
  end.

(** What the runtime delivers to the component.  [EvStartStream] and
    [EvStopStream] are the calls the stream effect and its clean-up make:
    they come when the selection changes, when the connectivity flag
    changes (see [health_settled]) and when the page is left.  [EvHealth]
    is the health request alone. *)
Inductive Event : Type :=
  | EvHealth (r : Settled)
  | EvStartStream (sessionId : string)        (* the effect, a session being selected *)
  | EvStopStream                              (* its clean-up, or the effect with none *)
  | EvResume (h : nat) (r : Settled)          (* the promise [h]'s activation awaits settles *)
  | EvIceCandidate (h : nat) (candidate : option Candidate)
  | EvCandidatePostFailed (err : Err)
  | EvTrack (h : nat) (stream0 : option nat)
  | EvConnectionState (h : nat) (state : ConnectionState)
  | EvStats (stats : list Report)
  | EvDcOpen (h : nat)
  | EvDcMessage (h : nat) (event_data : Parsed)
  | EvDcClose (h : nat)
  | EvDcError (h : nat) (err : Err)
  | EvTimer (h : nat)
  | EvVideoClick (e : ClickEvent)
  | EvWheel (deltaY : Z)
  | EvType (text : string).

Definition handler (P : Platform) (ev : Event) : M unit :=
  match ev with
  | EvHealth r => checkHealth r
  | EvStartStream sessionId => startStream P sessionId
  | EvStopStream => stopStream P
  | EvResume h r => resume P h r
  | EvIceCandidate h candidate => pc_onicecandidate h candidate
  | EvCandidatePostFailed err => candidate_post_failed err
  | EvTrack h stream0 => pc_ontrack P h stream0
  | EvConnectionState _ state => pc_onconnectionstatechange P state
  | EvStats stats => stats_forEach stats
  | EvDcOpen h => dc_onopen P h
  | EvDcMessage _ event_data => dc_onmessage event_data
  | EvDcClose h =>
      cs <- gets conns ;;
      match cs !! h with
      | Some c => dc_onclose P (c_session c)
      | None => skip
      end
  | EvDcError _ err => dc_onerror err
  | EvTimer h => fire P h
  | EvVideoClick e => handleVideoClick P e
  | EvWheel deltaY => sendScroll P deltaY
  | EvType text => sendType P text
  end.

Definition step (P : Platform) (ev : Event) (s : State) : State * list Effect :=
  let r := handler P ev s in (res_state r, res_eff r).

(** Events in the order the runtime delivers them, each with the platform
    as it is then; the effects of the whole run, in order. *)
Fixpoint run (trace : list (Platform * Event)) (s : State) : State * list Effect :=
  match trace with
  | [] => (s, [])
  | (P, ev) :: rest =>
      let r1 := step P ev s in
      let r2 := run rest (fst r1) in
      (fst r2, snd r1 ++ snd r2)
  end.

(** ** Vocabulary of the properties *)

(** The messages sent over data channels, in order. *)
Definition sends (effs : list Effect) : list (nat * JObject) :=
  omap (fun e => match e with EffSend d m => Some (d, m) | _ => None end) effs.

(** The candidates posted from one of the two call sites, in order. *)
Definition posts (site : PostSite) (effs : list Effect) : list (JVal * Candidate) :=
  omap (fun e =>
          match e with
          | EffPostCandidate site' id c =>
              if decide (site' = site) then Some (id, c) else None
          | _ => None
          end) effs.

(** [!dc || dc.readyState !== "open"] *)
Definition not_ready (P : Platform) (s : State) : Prop :=
  match dc (webrtcRef s) with
  | Some d => readyState P d <> Open
  | None => True
  end.

Definition ready (P : Platform) (s : State) : Prop :=
  exists d, dc (webrtcRef s) = Some d /\ readyState P d = Open.

Definition not_ready_report : list Effect :=
  [EffToast ToastError "Control channel not ready" JUndefined].

(** A response is reported when the handler shows a toast for it. *)
Definition reported (effs : list Effect) : Prop :=
  exists k msg id, In (EffToast k msg id) effs.

(** The report of a [click_response]. *)
Definition click_report (data : JObject) : list Effect :=
  if truthy (field data "success") then
    [EffLog Log ("Click successful: " +:+ to_display (field data "clickId"));
     EffToast ToastSuccess "Click successful" (field data "clickId")]
  else
    [EffLog LogError
       ("Click failed: " +:+ to_display (field data "clickId") +:+ " - "
        +:+ to_display (field data "error"));
     EffToast ToastError ("Click failed: " +:+ to_display (field data "error"))
       (field data "clickId")].

(** The integer nearest to the quotient [n / d], a half rounded up. *)
Definition nearest_integer (n d : Z) : Z := (2 * n + d) / (2 * d).

(** The byte counts for which the double precision arithmetic of the
    quality monitor is exact enough to give the integer nearest to
    [bytes * 8 / 1000]. *)
Definition double_exact (bytes : Z) : Prop := 0 <= bytes < 2 ^ 52.

(** No ["-"] occurs in [s]. *)
Fixpoint no_dash (s : string) : bool :=
  match s with
  | EmptyString => true
  | String c rest => if decide (c = "-"%char) then false else no_dash rest
  end.


Definition inbound_video (r : Report) : Prop :=
  r_type r = "inbound-rtp" /\ r_kind r = "video".

Global Instance inbound_video_dec r : Decision (inbound_video r).
Proof. unfold inbound_video. apply _. Defined.




(** A reconnect timeout with handle [h] is pending. *)
Definition reconnect_pending (s : State) (h : nat) : Prop :=
  exists t, In t (timers s) /\ t_handle t = h /\
            exists sessionId, t_cb t = CbReconnect sessionId.

(** A platform on which every channel is open and nothing throws. *)
Definition calm (t : Z) : Platform :=
  mkPlatform t (fun _ => Open) (fun _ => None) (fun _ => None) (fun _ => None).

(** A platform on which every channel is closed. *)
Definition offline (t : Z) : Platform :=
  mkPlatform t (fun _ => Closed) (fun _ => None) (fun _ => None) (fun _ => None).

(** The page once the health check has passed and the video element is
    mounted. *)
Definition mounted : State :=
  set_isBackendConnected true (set_videoRef (Some None) initial).

(** The state [s] with the attempt counter of its context set to [n]. *)
Definition with_attempts (n : Z) (s : State) : State :=
  res_state (set_reconnectAttempts n s).


(** The report of the last inbound video entry of a statistics sample. *)
Definition last_inbound_video (stats : list Report) : option Report :=
  last (filter inbound_video stats).

(** [pendingCandidatesRef.current] *)
Definition pending (s : State) : list Candidate :=
  default [] (arrays s !! pendingCandidatesRef s).


(** A stream with an open connection, a reconnect timeout and a stats
    interval pending, and a video track attached. *)
Definition streaming : State :=
  fst (run [(calm 0, EvStartStream "s1");
            (calm 5, EvTrack 0%nat (Some 7%nat));
            (calm 9, EvDcClose 0%nat)] mounted).

(** The toast of the branch taken when the attempt counter has reached
    the cap. *)
Definition gave_up : Effect :=
  EffToast ToastError "Failed to reconnect after multiple attempts" JUndefined.

(** What a settled health request says of the backend, and the line it
    leaves in the debug log. *)
Definition healthy (r : Settled) : bool :=
  match r with
  | Fulfilled data => bool_decide (field data "status" = JStr "healthy")
  | Rejected _ => false
  end.

Definition health_line (r : Settled) : Effect :=
  match r with
  | Fulfilled _ =>
      EffLog Log
        ("Backend health check: "
         +:+ (if healthy r then "Connected" else "Disconnected"))
  | Rejected err =>
      EffLog LogError ("Backend health check failed: " +:+ err_display err)
  end.

(** The two toasts of a reconnect attempt that counts itself as the
    [n]-th. *)
Definition attempt_report (n : Z) : list Effect :=
  [EffToast ToastInfo ("Attempting to reconnect... (" +:+ pretty n +:+ "/3)")
     JUndefined;
   EffToast ToastError "Backend not connected" JUndefined].

(** The stream of session s1 runs, with the backend connected, until its
    control channel is lost; the reconnect timeout fires. *)
Definition channel_lost : list (Platform * Event) :=
  [(calm 0, EvStartStream "s1"); (calm 300, EvDcOpen 0%nat);
   (calm 9000, EvDcClose 0%nat); (calm 9000, EvTimer 1%nat)].

(** The stream of session s1 runs and the user turns to session s2: the
    stream effect is cleaned up and run again. *)
Definition switch_sessions : list (Platform * Event) :=
  [(calm 0, EvStartStream "s1"); (calm 300, EvDcOpen 0%nat);
   (calm 5000, EvStopStream); (calm 5000, EvStartStream "s2")].

(** The close event of the first channel, which the clean-up closed,
    arrives, and its reconnect timeout fires. *)
Definition late_close : list (Platform * Event) :=
  [(calm 5002, EvDcClose 0%nat); (calm 5003, EvTimer 1%nat)].




(** A computation whose final state is always related to its initial one
    by [R]. *)
Definition Respects (R : State -> State -> Prop) {A} (m : M A) : Prop :=
  forall s, R s (res_state (m s)).


(** A connection is made when the list of connections grows. *)
Definition connects (s s' : State) : Prop :=
  length (conns s') <> length (conns s).

Definition keeps_conns (s s' : State) : Prop :=
  length (conns s') = length (conns s).

(** A computation that makes no connection. *)
Definition Idle {A} (m : M A) : Prop := Respects keeps_conns m.

(** *** One negotiation, as a run of events *)

(** Candidates found on connection [h], one after the other. *)
Definition discover (P : Platform) (h : nat) (cs : list Candidate)
  : list (Platform * Event) :=
  map (fun c => (P, EvIceCandidate h (Some c))) cs.



(** [startStream] is called; candidates are found before [createOffer]
    resolves, before [setLocalDescription] resolves and while the offer is
    posted. *)
Definition gathering (P : Platform) (sessionId : string) (h : nat)
    (pre0 pre1 pre2 : list Candidate) (offer description : JObject)
  : list (Platform * Event) :=
  (P, EvStartStream sessionId) :: discover P h pre0
  ++ (P, EvResume h (Fulfilled offer)) :: discover P h pre1
  ++ (P, EvResume h (Fulfilled description)) :: discover P h pre2.





(** *** A burst of scroll events *)

(** What happens during a burst: the wheel handler calls [sendScroll], or
    the runtime looks at timer [h] to see whether it is due. *)
Inductive BurstItem : Type :=
  | Wheel (P : Platform) (deltaY : Z)
  | Tick (P : Platform) (h : nat).

Definition burst_event (i : BurstItem) : Platform * Event :=
  match i with
  | Wheel P deltaY => (P, EvWheel deltaY)
  | Tick P h => (P, EvTimer h)
  end.

(** The items stay within the debounce window: every scroll event comes
    less than 100 ms after the one before it, and the runtime looks only at
    timers made since the burst began ([first] on), before the 100 ms after
    the latest scroll event are over. *)
Fixpoint within_window (first : nat) (latest : Z) (items : list BurstItem) : Prop :=
  match items with
  | [] => True
  | Wheel P _ :: rest =>
      latest <= now P < latest + 100 /\ within_window first (now P) rest
  | Tick P h :: rest =>
      now P < latest + 100 /\ (first <= h)%nat /\ within_window first latest rest
  end.

Fixpoint last_delta (deltaY : Z) (items : list BurstItem) : Z :=
  match items with
  | [] => deltaY
  | Wheel _ deltaY' :: rest => last_delta deltaY' rest
  | Tick _ _ :: rest => last_delta deltaY rest
  end.

Fixpoint last_time (latest : Z) (items : list BurstItem) : Z :=
  match items with
  | [] => latest
  | Wheel P _ :: rest => last_time (now P) rest
  | Tick _ _ :: rest => last_time latest rest
  end.

Fixpoint wheels (items : list BurstItem) : nat :=
  match items with
  | [] => 0
  | Wheel _ _ :: rest => S (wheels rest)
  | Tick _ _ :: rest => wheels rest
  end.

(** Timer handles are handed out in increasing order: every pending timer
    has a handle below the next one to be given. *)
Definition timers_known (s : State) : Prop :=
  forall t, In t (timers s) -> (t_handle t < nextTimer s)%nat.

Definition keeps_order (s s' : State) : Prop :=
  timers_known s -> timers_known s'.

(** A computation that keeps the timer queue in order. *)
Definition Orderly {A} (m : M A) : Prop := Respects keeps_order m.

(** In the middle of a burst: the debounce closure holds timeout [hk], the
    newest timer, due at [due] and carrying [deltaY]; all other pending
    timers are older than the burst. *)
Definition debouncing (first : nat) (w : WebRTCConfig) (hk : nat) (due : Z)
    (deltaY : Z) (s : State) : Prop :=
  scrollTimer s = Some hk /\ nextTimer s = S hk /\ (first <= hk)%nat /\
  webrtcRef s = w /\
  exists older,
    timers s = older ++ [mkTimer hk due 100 false (CbScroll deltaY)] /\
    forall t, In t older -> (t_handle t < first)%nat.

(** ** Failures of a negotiation *)

(** The value thrown inside [startStream] when promise [r] makes it fail. *)
Definition failure (r : Settled) : Err :=
  match r with
  | Rejected e => e
  | Fulfilled data => Error (to_display (field data "error"))
  end.

(** Settling with [r] makes an activation in phase [ph] fail: a rejection
    anywhere but in the loop over the buffer (whose posts have their own
    [.catch]), or an answer to the offer that carries an [error]. *)
Definition fails (ph : Phase) (r : Settled) : Prop :=
  match r with
  | Rejected _ =>
      ph = AwaitCreateOffer \/ ph = AwaitSetLocalDescription \/ ph = AwaitOffer \/
      ph = AwaitSetRemoteDescription
  | Fulfilled data => ph = AwaitOffer /\ truthy (field data "error") = true
  end.

(** The toast of the [catch] block of [startStream]. *)
Definition start_failed (err : Err) : Effect :=
  EffToast ToastError
    ("Failed to start stream: " +:+ default "Unknown error" (err_message err))
    JUndefined.

(** ** The debug log *)

Record DebugLog : Type := mkDebugLog {
  log_type : LogType;
  log_message : string;
  log_timestamp : Z
}.

(** [l.slice(-n)]: the last [n] elements of [l], all of them when there are
    fewer. *)
Definition slice_last {A} (n : nat) (l : list A) : list A :=
  drop (length l - n) l.

(** The update [addDebugLog] hands to [setDebugLogs]:
    [prev => [...prev.slice(-49), entry]]. *)
Definition setDebugLogs_add (prev : list DebugLog) (entry : DebugLog)
  : list DebugLog :=
  slice_last 49 prev ++ [entry].

(** * The aliases page

    The component [AliasesPage] of the same file and the [aliasApi] object
    it calls.  An [async] handler is given with the outcome of the request
    it awaits; the state is the one its updates are applied to. *)

Module Aliases.

Record Alias : Type := mkAlias {
  id : Z;
  alias_email : string;
  generated_password : string;
  site_name : option string;
  group_name : option string;
  created_at : option string
}.

Global Instance Alias_eq_dec : EqDecision Alias.
Proof. solve_decision. Defined.

(** The form of the create dialog. *)
Record NewAlias : Type := mkNewAlias {
  domain : string;
  new_site_name : string;
  new_group_name : string
}.

Record Page : Type := mkPage {
  aliases : list Alias;
  isLoading : bool;
  showPasswords : gmap Z bool;
  isCreateOpen : bool;
  newAlias : NewAlias;
  deterministic : bool;
  isUpdateOpen : bool;
  currentAlias : option Alias;
  userEmail : option string
}.

Definition set_aliases (v : list Alias) (p : Page) : Page :=
  mkPage v (isLoading p) (showPasswords p) (isCreateOpen p) (newAlias p)
    (deterministic p) (isUpdateOpen p) (currentAlias p) (userEmail p).

(** What [fetch] gives: it rejects, or it resolves with a response, whose
    [ok] flag is read and whose body [res.json()] parses or fails to. *)
Inductive Fetched : Type :=
  | FetchRejected (e : Err)
  | FetchResponse (ok : bool) (body : Parsed).

(** [x || fallback] for the text of an error. *)
Definition or_text (v : JVal) (fallback : string) : string :=
  if truthy v then to_display v else fallback.

(** [error.message || fallback] *)
Definition message_or (e : Err) (fallback : string) : string :=
  match err_message e with
  | Some m => if String.eqb m "" then fallback else m
  | None => fallback
  end.

(** [aliasApi.updateAlias]: the body is read for the error text when the
    response is not ok, and for the result when it is. *)
Definition updateAlias (r : Fetched) : Exc JObject :=
  match r with
  | FetchRejected e => Thrown e
  | FetchResponse false (ParseOk err) =>
      Thrown (Error (or_text (field err "error") "Failed to update alias"))
  | FetchResponse false (ParseThrows e) => Thrown e
  | FetchResponse true (ParseOk data) => Val data
  | FetchResponse true (ParseThrows e) => Thrown e
  end.

(** [aliasApi.deleteAlias]: the body is read only when the response is not
    ok. *)
Definition deleteAlias (r : Fetched) : Exc unit :=
  match r with
  | FetchRejected e => Thrown e
  | FetchResponse false (ParseOk err) =>
      Thrown (Error (or_text (field err "error") "Failed to delete alias"))
  | FetchResponse false (ParseThrows e) => Thrown e
  | FetchResponse true _ => Val tt
  end.

(** [aliasApi.createAlias]: the body is read before [ok] is looked at. *)
Definition createAlias (r : Fetched) : Exc JObject :=
  match r with
  | FetchRejected e => Thrown e
  | FetchResponse _ (ParseThrows e) => Thrown e
  | FetchResponse false (ParseOk data) =>
      Thrown (Error (or_text (field data "error") "Failed to create alias"))
  | FetchResponse true (ParseOk data) => Val data
  end.

Definition handleDeleteAlias (aliasId : Z) (r : Fetched) (p : Page)
  : Page * list Effect :=
  match deleteAlias r with
  | Val _ =>
      (set_aliases (filter (fun a => id a <> aliasId) (aliases p)) p,
       [EffToast ToastSuccess "Alias deleted successfully" JUndefined])
  | Thrown error =>
      (p, [EffToast ToastError (message_or error "Failed to delete alias") JUndefined])
  end.

(** [None] for [r] when [currentAlias] is null: no request is made. *)
Definition handleUpdateAlias (r : Fetched) (p : Page) : Page * list Effect :=
  match currentAlias p with
  | None => (p, [])
  | Some current =>
      match updateAlias r with
      | Val _ =>
          (mkPage
             (map (fun a => if decide (id a = id current) then current else a)
                  (aliases p))
             (isLoading p) (showPasswords p) (isCreateOpen p) (newAlias p)
             (deterministic p) false None (userEmail p),
           [EffToast ToastSuccess "Alias updated successfully" JUndefined])
      | Thrown error =>
          (p, [EffToast ToastError (message_or error "Failed to update alias")
                 JUndefined])
      end
  end.

(** [setShowPasswords(prev => ({ ...prev, [id]: !prev[id] }))] *)
Definition togglePasswordVisibility (i : Z) (p : Page) : Page :=
  mkPage (aliases p) (isLoading p)
    (<[i := negb (default false (showPasswords p !! i))]> (showPasswords p))
    (isCreateOpen p) (newAlias p) (deterministic p) (isUpdateOpen p)
    (currentAlias p) (userEmail p).

(** Whether the password of alias [i] is shown: [showPasswords[i]] as a
    condition. *)
Definition shown (p : Page) (i : Z) : bool := default false (showPasswords p !! i).

End Aliases.

(** * The session list of the tab manager

    The session part of [TabManager]: [fetchSessions], [createSession],
    [closeSession], [restoreSession] and the memo [selected].  Each handler
    is given with the outcomes of the requests it awaits, and runs on the
    state its updates are applied to. *)

Module Sessions.

Record Session : Type := mkSession {
  session_id : string;
  url : string;
  title : string;
  status : string;
  created_at : string;
  last_activity : string;
  screenshot : option string;
  is_isolated : bool
}.

(** A boolean, a number or a string. *)
Inductive Primitive : Type :=
  | PrimBool (b : bool)
  | PrimNum (n : Z)
  | PrimStr (s : string).

(** [res.data] as [fetchSessions] looks at it: null or undefined (reading a
    property of it raises the [TypeError] given), an array, an object, or
    a boolean, a number or a string. *)
#[warnings="-register-all"]
Inductive Payload : Type :=
  | PayloadNull (e : Err)
  | PayloadArray (items : list Session)
  | PayloadObject (fields : list (string * Payload))
  | PayloadOther (v : Primitive).

(** [payload.k] for an object; a missing property is [None]. *)
Fixpoint property (fields : list (string * Payload)) (k : string) : option Payload :=
  match fields with
  | [] => None
  | (k', v) :: rest => if decide (k' = k) then Some v else property rest k
  end.

Record View : Type := mkView {
  sessions : list Session;
  newUrl : string;
  selectedSession : option string;
  isLoading : bool
}.

(** Debug lines and toasts; [toast(msg)] without a kind is [None]. *)
Inductive Note : Type :=
  | NoteLog (ty : LogType) (msg : string)
  | NoteToast (k : option ToastKind) (msg : string).

(** The outcome of an axios request: rejected, or resolved with [res.data]. *)
Inductive Got (A : Type) : Type :=
  | GotRejected (e : Err)
  | GotData (data : A).
Global Arguments GotRejected {A} e.
Global Arguments GotData {A} data.

(** [Array.isArray(payload) ? payload
     : Array.isArray(payload.sessions) ? payload.sessions : []] *)
Definition sessionsArray (payload : Payload) : Exc (list Session) :=
  match payload with
  | PayloadArray items => Val items
  | PayloadNull e => Thrown e
  | PayloadObject fields =>
      match property fields "sessions" with
      | Some (PayloadArray items) => Val items
      | _ => Val []
      end
  | PayloadOther _ => Val []
  end.

Definition fetchSessions (r : Got Payload) (v : View) : View * list Note :=
  let fetched :=
    match r with
    | GotRejected e => Thrown e
    | GotData payload => sessionsArray payload
    end in
  match fetched with
  | Val sessionsArray =>
      (mkView sessionsArray (newUrl v) (selectedSession v) false,
       NoteLog Log "Fetching sessions..."
       :: (if decide (length sessionsArray = 0%nat)
           then [NoteLog LogWarn "No sessions found in API response"] else [])
       ++ [NoteLog Log ("Fetched " +:+ pretty (length sessionsArray) +:+ " sessions")])
  | Thrown err =>
      (mkView (sessions v) (newUrl v) (selectedSession v) false,
       [NoteLog Log "Fetching sessions...";
        NoteLog LogError ("Failed to fetch sessions: " +:+ err_display err);
        NoteToast (Some ToastError) "Failed to fetch sessions"])
  end.

(** The session shown until the refreshed list arrives. *)
Definition placeholderSession (newSessionId urlToCreate createdISO activityISO : string)
  : Session :=
  mkSession newSessionId urlToCreate "Loading title..." "created" createdISO
    activityISO None true.

(** [createSession]; [trim] is [String.prototype.trim], [createdISO] and
    [activityISO] are the two readings of [new Date().toISOString()],
    [created] the outcome of the POST (its [session_id]) and [refreshed]
    that of the [fetchSessions] after it. *)
Definition createSession (trim : string -> string) (isBackendConnected : bool)
    (createdISO activityISO : string) (created : Got string)
    (refreshed : Got Payload) (v : View)
  : View * list Note :=
  if String.eqb (trim (newUrl v)) "" || negb isBackendConnected then
    (v, [NoteToast (Some ToastError)
           "Please enter a URL and ensure backend is connected"])
  else
    let urlToCreate := newUrl v in
    let v1 := mkView (sessions v) "" (selectedSession v) true in
    let start := NoteLog Log ("Creating new session for " +:+ urlToCreate) in
    match created with
    | GotData newSessionId =>
        let v2 :=
          mkView
            (sessions v1
             ++ [placeholderSession newSessionId urlToCreate createdISO activityISO])
            (newUrl v1) (Some newSessionId) (isLoading v1) in
        let '(v3, notes) := fetchSessions refreshed v2 in
        (mkView (sessions v3) (newUrl v3) (selectedSession v3) false,
         start :: NoteToast (Some ToastSuccess) "New isolated session created"
         :: NoteLog Log ("Session created: " +:+ newSessionId) :: notes)
    | GotRejected err =>
        (mkView (sessions v1) (newUrl v1) (selectedSession v1) false,
         [start;
          NoteLog LogError ("Failed to create session: " +:+ err_display err);
          NoteToast (Some ToastError) "Failed to create session"])
    end.

(** [closeSession] as one render makes it: [selectedAtRender] is the
    [selectedSession] that render saw, which the function compares with
    [sessionId] once the DELETE has been answered; [v] is the view its
    updates are applied to. *)
Definition closeSession (selectedAtRender : option string) (sessionId : string)
    (deleted : Got unit) (refreshed : Got Payload) (v : View) : View * list Note :=
  let start := NoteLog Log ("Closing session " +:+ sessionId) in
  match deleted with
  | GotData _ =>
      let v1 :=
        if decide (selectedAtRender = Some sessionId)
        then mkView (sessions v) (newUrl v) None (isLoading v)
        else v in
      let '(v2, notes) := fetchSessions refreshed v1 in
      (v2, start :: NoteToast None "Session closed" :: notes)
  | GotRejected err =>
      (v, [start;
           NoteLog LogError ("Failed to close session: " +:+ err_display err);
           NoteToast (Some ToastError) "Failed to close session"])
  end.

Definition restoreSession (savedId : string) (restored : Got string)
    (refreshed : Got Payload) (v : View) : View * list Note :=
  let start := NoteLog Log ("Restoring saved session " +:+ savedId) in
  match restored with
  | GotData newSessionId =>
      let '(v1, notes) := fetchSessions refreshed v in
      (mkView (sessions v1) (newUrl v1) (Some newSessionId) (isLoading v1),
       start :: NoteToast (Some ToastInfo) "Session restored from vault" :: notes)
  | GotRejected err =>
      (v, [start;
           NoteLog LogError ("Failed to restore session: " +:+ err_display err);
           NoteToast (Some ToastError) "Failed to restore session"])
  end.

(** [sessions.find((s) => s.session_id === selectedSession)] *)
Definition selected (v : View) : option Session :=
  List.find (fun s => bool_decide (Some (session_id s) = selectedSession v))
    (sessions v).

End Sessions.

(** ** Alias normalisation *)

Module Normalize.

(** The built-ins [normalizeInputToAlias] relies on: [String.prototype.trim]
    and [toLowerCase], and the first 8 hex digits of the SHA-256 digest that
    [deterministicHash] computes. *)
Record Builtins : Type := mkBuiltins {
  trim : string -> string;
  toLowerCase : string -> string;
  deterministicHash : string -> string
}.

(** [s.includes(c)] for a one-character [c]. *)
Fixpoint includes (c : Ascii.ascii) (s : string) : bool :=
  match s with
  | EmptyString => false
  | String c' rest => if decide (c' = c) then true else includes c rest
  end.

(** [s.split("@")] *)
Fixpoint split_at (s : string) : list string :=
  match s with
  | EmptyString => [EmptyString]
  | String c rest =>
      if decide (c = "@"%char) then EmptyString :: split_at rest
      else
        match split_at rest with
        | part :: parts => String c part :: parts
        | [] => [String c EmptyString]
        end
  end.

(** An element of a destructured array inside a template literal. *)
Definition shown (part : option string) : string := default "undefined" part.

(** [normalizeInputToAlias(mail, tag, deterministicFlag)]; [random] is what
    [randomHash()] returns, [userEmail] the state of the page and
    [storedUserEmail] the [user_email] entry of [localStorage]. *)
Definition normalizeInputToAlias (B : Builtins) (random : string)
    (userEmail storedUserEmail : option string)
    (mail tag : string) (deterministicFlag : bool) : string :=
  let rawMail := toLowerCase B (trim B mail) in
  let rawTag := toLowerCase B (trim B tag) in
  let storedEmail :=
    match userEmail with
    | Some e => if String.eqb e "" then storedUserEmail else Some e
    | None => storedUserEmail
    end in
  let parts :=
    match storedEmail with
    | Some e => if String.eqb e "" then ["user"; "example.com"] else split_at e
    | None => ["user"; "example.com"]
    end in
  let localPart := shown (parts !! 0%nat) in
  let domainPart := shown (parts !! 1%nat) in
  let pickHash (seed : string) :=
    if deterministicFlag
    then deterministicHash B (seed +:+ "::" +:+ default "" storedEmail)
    else random in
  if includes "@"%char rawMail then
    let local := shown (split_at rawMail !! 0%nat) in
    let domain := shown (split_at rawMail !! 1%nat) in
    let seed := if String.eqb rawTag "" then local +:+ "@" +:+ domain else rawTag in
    let h := pickHash seed in
    if String.eqb rawTag "" then toLowerCase B (local +:+ "+" +:+ h +:+ "@" +:+ domain)
    else toLowerCase B (local +:+ "+" +:+ rawTag +:+ "-" +:+ h +:+ "@" +:+ domain)
  else if includes "."%char rawMail then
    let seed := if String.eqb rawTag "" then rawMail else rawTag in
    let h := pickHash seed in
    if String.eqb rawTag "" then toLowerCase B (h +:+ "@" +:+ rawMail)
    else toLowerCase B (rawTag +:+ "-" +:+ h +:+ "@" +:+ rawMail)
  else
    let label := if String.eqb rawMail "" then rawTag else rawMail in
    if String.eqb label "" then
      toLowerCase B (localPart +:+ "+" +:+ pickHash "fallback" +:+ "@" +:+ domainPart)
    else
      toLowerCase B (localPart +:+ "+" +:+ label +:+ "-" +:+ pickHash label +:+ "@"
                     +:+ domainPart).

End Normalize.

(** ** Proof tools *)

Ltac unfold_js :=
  unfold bind, ret, get, gets, modify, emit, throw, skip, try_catch, call,
    addDebugLog, toast, toast_id, setTimeout, setInterval, setTimer,
    clearInterval, clearTimeout, newArray, push, set_phase, set_pcId,
    set_reconnectAttempts in *.

Ltac oracles P :=
  repeat match goal with
  | |- context [dcCloseThrows P ?d] => destruct (dcCloseThrows P d) eqn:?; cbn
  | |- context [pcCloseThrows P ?d] => destruct (pcCloseThrows P d) eqn:?; cbn
  | |- context [trackStopThrows P ?d] => destruct (trackStopThrows P d) eqn:?; cbn
  end.

Ltac destruct_state s :=
  destruct s as [[s_pc s_dc s_sid s_att] s_pend s_rt s_si s_vid s_bc s_str s_q
                   s_ci s_sct s_tm s_nt s_cn s_ar].

(** ** Runs *)

Lemma run_app t1 t2 s :
  run (t1 ++ t2) s =
    (fst (run t2 (fst (run t1 s))), snd (run t1 s) ++ snd (run t2 (fst (run t1 s)))).
Proof.
  revert s. induction t1 as [|[P ev] t1 IH]; intros s.
  - cbn. by destruct (run t2 s).
  - cbn [run app]. rewrite IH. cbn [fst snd]. by rewrite app_assoc.
Qed.

Lemma run_cons P ev t s :
  run ((P, ev) :: t) s =
    (fst (run t (fst (step P ev s))), snd (step P ev s) ++ snd (run t (fst (step P ev s)))).
Proof. reflexivity. Qed.

(** ** The channel-ready guard of the control messages *)

Lemma handleVideoClick_not_ready P e s :
  not_ready P s -> handleVideoClick P e s = mkRes (Val tt) s not_ready_report.
Proof.
  unfold not_ready, handleVideoClick. unfold_js. destruct_state s. cbn.
  destruct s_dc as [d|]; [|done].
  intros H. by destruct (decide (readyState P d <> Open)).
Qed.

Lemma sendScroll_fn_not_ready P dy s :
  not_ready P s -> sendScroll_fn P dy s = mkRes (Val tt) s not_ready_report.
Proof.
  unfold not_ready, sendScroll_fn. unfold_js. destruct_state s. cbn.
  destruct s_dc as [d|]; [|done].
  intros H. by destruct (decide (readyState P d <> Open)).
Qed.

Lemma sendType_not_ready P text s :
  not_ready P s -> sendType P text s = mkRes (Val tt) s not_ready_report.
Proof.
  unfold not_ready, sendType. unfold_js. destruct_state s. cbn.
  destruct s_dc as [d|]; [|done].
  intros H. by destruct (decide (readyState P d <> Open)).
Qed.

Lemma handleVideoClick_ready P e s d :
  dc (webrtcRef s) = Some d -> readyState P d = Open ->
  sends (res_eff (handleVideoClick P e s)) = [(d, click_message P e)].
Proof.
  unfold handleVideoClick. unfold_js. destruct_state s. cbn.
  intros -> Hopen. by destruct (decide (readyState P d <> Open)).
Qed.

Lemma sendScroll_fn_ready P dy s d :
  dc (webrtcRef s) = Some d -> readyState P d = Open ->
  sendScroll_fn P dy s =
    mkRes (Val tt) s
      [EffSend d (scroll_message dy); EffLog Log ("Scroll sent: " +:+ pretty dy)].
Proof.
  unfold sendScroll_fn. unfold_js. destruct_state s. cbn.
  intros -> Hopen. by destruct (decide (readyState P d <> Open)).
Qed.

Lemma sendType_ready P text s d :
  dc (webrtcRef s) = Some d -> readyState P d = Open ->
  sends (res_eff (sendType P text s)) = [(d, type_message text)].
Proof.
  unfold sendType. unfold_js. destruct_state s. cbn.
  intros -> Hopen. by destruct (decide (readyState P d <> Open)).
Qed.

Lemma ready_or_not P s : ready P s \/ not_ready P s.
Proof.
  unfold ready, not_ready. destruct (dc (webrtcRef s)) as [d|]; [|by right].
  destruct (decide (readyState P d = Open)); [left; by exists d | by right].
Qed.

(** C9. Each of the three control-message operations (the click handler,
    the function behind the debounced scroll, the type sender) looks at the
    data channel first.  When the channel is missing or its readyState is
    not "open" the operation returns normally, changes nothing, sends
    nothing and shows the toast "Control channel not ready"; whenever one
    of them does send, the channel of the current context is open, and the
    debounced wrapper itself never sends. *)
Theorem control_send_guard (P : Platform) (s : State) :
  (not_ready P s ->
     (forall e, handleVideoClick P e s = mkRes (Val tt) s not_ready_report) /\
     (forall dy, sendScroll_fn P dy s = mkRes (Val tt) s not_ready_report) /\
     (forall text, sendType P text s = mkRes (Val tt) s not_ready_report)) /\
  (forall e, sends (res_eff (handleVideoClick P e s)) <> [] -> ready P s) /\
  (forall dy, sends (res_eff (sendScroll_fn P dy s)) <> [] -> ready P s) /\
  (forall text, sends (res_eff (sendType P text s)) <> [] -> ready P s) /\
  (forall dy, sends (res_eff (sendScroll P dy s)) = []).
Proof.
  split; [|split; [|split; [|split]]].
  - intros H. split; [|split]; intros.
    + by apply handleVideoClick_not_ready.
    + by apply sendScroll_fn_not_ready.
    + by apply sendType_not_ready.
  - intros e Hs. destruct (ready_or_not P s) as [|Hn]; [done|].
    by rewrite handleVideoClick_not_ready in Hs.
  - intros dy Hs. destruct (ready_or_not P s) as [|Hn]; [done|].
    by rewrite sendScroll_fn_not_ready in Hs.
  - intros text Hs. destruct (ready_or_not P s) as [|Hn]; [done|].
    by rewrite sendType_not_ready in Hs.
  - intros dy. unfold sendScroll, debounce. unfold_js. destruct_state s. cbn.
    by destruct s_sct.
Qed.

Lemma control_send_guard_witness :
  not_ready (offline 0) mounted /\
  handleVideoClick (offline 0) (mkClick 10 20 5 6 "k3j9x0q1z") mounted
    = mkRes (Val tt) mounted not_ready_report.
Proof.
  assert (H : not_ready (offline 0) mounted) by exact I.
  split; [exact H|].
  apply (proj1 (proj1 (control_send_guard (offline 0) mounted) H)).
Defined.

(** ** Click responses *)

Lemma dc_onmessage_click_response data s :
  field data "type" = JStr "click_response" ->
  dc_onmessage (ParseOk data) s = mkRes (Val tt) s (click_report data).
Proof.
  intros Hty. unfold dc_onmessage, click_report. unfold_js. rewrite Hty.
  destruct (decide (JStr "click_response" = JStr "pong")) as [Heq|_]; [done|].
  destruct (decide (JStr "click_response" = JStr "click_response")); [|done].
  by destruct (truthy (field data "success")).
Qed.

Lemma click_report_reported data : reported (click_report data).
Proof.
  unfold reported, click_report.
  destruct (truthy (field data "success")); do 3 eexists; right; left; reflexivity.
Qed.

Lemma no_dash_pretty_N_go x s :
  no_dash s = true -> no_dash (pretty_N_go x s) = true.
Proof.
  revert s. induction (N.lt_wf_0 x) as [x _ IH]; intros s Hs.
  assert (x = 0 \/ 0 < x)%N as [->|Hx] by lia; [by rewrite pretty_N_go_0|].
  rewrite pretty_N_go_step by done. apply IH; [by apply N.div_lt|].
  cbn. unfold pretty_N_char. by repeat case_match.
Qed.

Lemma no_dash_pretty n : 0 <= n -> no_dash (pretty n) = true.
Proof.
  intros Hn. destruct n as [|p|p]; [done| |lia].
  unfold pretty, pretty_Z, pretty, pretty_positive, pretty, pretty_N.
  case_decide; [done|]. by apply no_dash_pretty_N_go.
Qed.

Lemma dash_splits a : forall a' r r',
  no_dash a = true -> no_dash a' = true ->
  a +:+ "-" +:+ r = a' +:+ "-" +:+ r' -> a = a' /\ r = r'.
Proof.
  induction a as [|c a IH]; intros [|c' a'] r r' Ha Ha' Heq.
  - by injection Heq.
  - injection Heq as <- _. cbn in Ha'. by destruct (decide _).
  - injection Heq as -> _. cbn in Ha. by destruct (decide _).
  - injection Heq as -> Heq. cbn in Ha, Ha'.
    destruct (decide (c' = "-"%char)); [done|].
    destruct (IH a' r r' Ha Ha' Heq) as [-> ->]. done.
Qed.

(** The token of a click determines the clock reading and the suffix it
    was made from. *)
Lemma click_token_inj n n' r r' :
  0 <= n -> 0 <= n' ->
  "click-" +:+ pretty n +:+ "-" +:+ r = "click-" +:+ pretty n' +:+ "-" +:+ r' ->
  n = n' /\ r = r'.
Proof.
  intros Hn Hn' Heq. apply (inj (String.append "click-")) in Heq.
  apply dash_splits in Heq as [Hp ->]; [|by apply no_dash_pretty..].
  split; [|done]. by apply (inj pretty).
Qed.

(** C4, as stated, fails.  A [click_response] that carries an id other than
    the one of the click that was sent is reported all the same.  And the
    id of a click is made of the clock reading and a random suffix: two
    clicks that agree on both carry the same id. *)
Lemma click_response_unrelated_id_reported :
  let P := calm 1700000000000 in
  let e := mkClick 640 360 320 180 "k3j9x0q1z" in
  let data := [("type", JStr "click_response"); ("id", JStr "click-1-other");
               ("success", JBool true)] in
  (field data "id" <> field (click_message P e) "id" /\
   reported (res_eff (dc_onmessage (ParseOk data) mounted))) /\
  let s := fst (run [(calm 0, EvStartStream "s1")] mounted) in
  let e' := mkClick 12 700 6 350 "k3j9x0q1z" in
  exists m m',
    sends (res_eff (handleVideoClick P e s)) = [(0%nat, m)] /\
    sends (res_eff (handleVideoClick P e' s)) = [(0%nat, m')] /\
    m <> m' /\ field m "id" = field m' "id".
Proof.
  split.
  - split; [by vm_compute|].
    rewrite dc_onmessage_click_response by reflexivity. apply click_report_reported.
  - do 2 eexists. split; [reflexivity|]. split; [reflexivity|].
    split; [|reflexivity]. intros H. inversion H.
Qed.

(** C4, amended.  The outbound click carries its client-generated token
    [click-<clock>-<random suffix>] in the field [id] and has no field
    [clickId].  The token is as unique as the pair it is made of: clicks
    that differ in the clock reading or in the suffix carry different
    tokens.  Every incoming [click_response] is reported, whatever it
    carries: a success toast when its [success] field is truthy, an error
    toast with its [error] field otherwise; the handler keeps no table of
    pending clicks, changes no state, and reads the token from the field
    [clickId] of the response, using it only in the log line and as the id
    of the toast. *)
Theorem click_response_reporting (P P' : Platform) (e e' : ClickEvent)
    (d : nat) (data : JObject) (s : State) :
  (dc (webrtcRef s) = Some d -> readyState P d = Open ->
   exists msg,
     sends (res_eff (handleVideoClick P e s)) = [(d, msg)] /\
     field msg "type" = JStr "click" /\
     field msg "id"
       = JStr ("click-" +:+ pretty (now P) +:+ "-" +:+ click_random e) /\
     field msg "clickId" = JUndefined) /\
  (0 <= now P -> 0 <= now P' ->
   now P <> now P' \/ click_random e <> click_random e' ->
   "click-" +:+ pretty (now P) +:+ "-" +:+ click_random e
     <> "click-" +:+ pretty (now P') +:+ "-" +:+ click_random e') /\
  (field data "type" = JStr "click_response" ->
   dc_onmessage (ParseOk data) s = mkRes (Val tt) s (click_report data) /\
   reported (click_report data) /\
   forall k msg id, In (EffToast k msg id) (click_report data) ->
     id = field data "clickId" /\
     k = (if truthy (field data "success") then ToastSuccess else ToastError)).
Proof.
  split; [|split].
  - intros Hd Hopen. exists (click_message P e).
    split; [by apply handleVideoClick_ready|]. by repeat split.
  - intros Hn Hn' Hdiff Heq.
    destruct (click_token_inj _ _ _ _ Hn Hn' Heq) as [Hnow Hsuffix]. tauto.
  - intros Hty. split; [by apply dc_onmessage_click_response|].
    split; [apply click_report_reported|].
    intros k msg id. unfold click_report.
    destruct (truthy (field data "success")); cbn; intros [H|[H|[]]];
      inversion H; by subst.
Qed.

Lemma click_response_reporting_witness :
  let data := [("type", JStr "click_response"); ("clickId", JStr "c1");
               ("success", JBool false); ("error", JStr "no element")] in
  dc_onmessage (ParseOk data) mounted
    = mkRes (Val tt) mounted
        [EffLog LogError "Click failed: c1 - no element";
         EffToast ToastError "Click failed: no element" (JStr "c1")].
Proof.
  intros data.
  apply (proj2 (proj2 (click_response_reporting (calm 0) (calm 0)
                         (mkClick 0 0 0 0 "") (mkClick 0 0 0 0 "") 0%nat
                         data mounted)) eq_refl).
Defined.

(** ** The quality monitor *)

Lemma round_half_even_cases num den :
  let q := num / den in
  let r := num mod den in
  (round_half_even num den = q /\ 2 * r <= den) \/
  (round_half_even num den = q + 1 /\ den <= 2 * r).
Proof.
  cbn zeta. unfold round_half_even.
  destruct (Z.ltb_spec (2 * (num mod den)) den); [left; lia|].
  destruct (Z.ltb_spec den (2 * (num mod den))); [right; lia|].
  destruct (Z.even (num / den)); [left | right]; lia.
Qed.

(** The result is within half a unit of the quotient. *)
Lemma round_half_even_near num den :
  0 < den ->
  2 * (round_half_even num den * den) - den <= 2 * num
    <= 2 * (round_half_even num den * den) + den.
Proof.
  intros Hden.
  pose proof (Z.div_mod num den ltac:(lia)) as Hdm.
  pose proof (Z.mod_pos_bound num den Hden) as Hr.
  destruct (round_half_even_cases num den) as [[-> H]|[-> H]]; nia.
Qed.

Lemma round_half_even_mono num num' den :
  0 < den -> num <= num' ->
  round_half_even num den <= round_half_even num' den.
Proof.
  intros Hden Hle.
  pose proof (Z.div_mod num den ltac:(lia)) as Hdm.
  pose proof (Z.mod_pos_bound num den Hden) as Hr.
  pose proof (Z.div_mod num' den ltac:(lia)) as Hdm'.
  pose proof (Z.mod_pos_bound num' den Hden) as Hr'.
  pose proof (Z.div_le_mono num num' den Hden Hle) as Hq.
  unfold round_half_even.
  generalize dependent (num mod den). generalize dependent (num' mod den).
  generalize dependent (num / den). generalize dependent (num' / den).
  intros q' q Hq r' Hdm' Hr' r Hdm Hr.
  destruct (Z.eq_dec q q') as [<-|Hne].
  - assert (r <= r') by nia.
    destruct (Z.ltb_spec (2 * r) den), (Z.ltb_spec (2 * r') den),
      (Z.ltb_spec den (2 * r)), (Z.ltb_spec den (2 * r')),
      (Z.even q); lia.
  - destruct (Z.ltb_spec (2 * r) den), (Z.ltb_spec (2 * r') den),
      (Z.ltb_spec den (2 * r)), (Z.ltb_spec den (2 * r')),
      (Z.even q), (Z.even q'); lia.
Qed.

Lemma round_half_even_lower num den k :
  0 < den -> k * den <= num -> k <= round_half_even num den.
Proof.
  intros Hden Hle.
  pose proof (Z.div_le_lower_bound num den k Hden ltac:(lia)).
  destruct (round_half_even_cases num den) as [[-> _]|[-> _]]; lia.
Qed.

Lemma round_half_even_upper num den k :
  0 < den -> num <= k * den -> round_half_even num den <= k.
Proof.
  intros Hden Hle.
  pose proof (Z.div_mod num den ltac:(lia)) as Hdm.
  pose proof (Z.mod_pos_bound num den Hden) as Hr.
  destruct (round_half_even_cases num den) as [[-> H]|[-> H]]; nia.
Qed.

Lemma Math_round_mono v v' : v <= v' -> Math_round v <= Math_round v'.
Proof.
  intros H. unfold Math_round. apply Z.div_le_mono; [|lia].
  unfold scale. pose proof (Z.pow_pos_nonneg 2 1100). lia.
Qed.

Lemma log2_upper a : 0 <= a -> a < 2 ^ (Z.log2 a + 1).
Proof.
  intros Ha. destruct (Z.eq_dec a 0) as [->|Hne]; [done|].
  pose proof (Z.log2_spec a ltac:(lia)) as H. unfold Z.succ in H. lia.
Qed.

Lemma double_pos_mono n n' d :
  0 < d -> 0 <= n <= n' -> double_pos n d <= double_pos n' d.
Proof.
  intros Hd [Hn Hle]. unfold double_pos.
  assert (HS : 0 < scale) by (unfold scale; by apply Z.pow_pos_nonneg).
  set (x := n * scale). set (x' := n' * scale).
  assert (Hx : 0 <= x <= x') by (subst x x'; nia).
  set (a := x / d). set (a' := x' / d).
  assert (Ha : 0 <= a <= a').
  { subst a a'. split; [apply Z.div_pos; lia | apply Z.div_le_mono; lia]. }
  pose proof (Z.log2_le_mono a a' ltac:(lia)) as HL.
  set (e := Z.max (Z.log2 a - 52) 26). set (e' := Z.max (Z.log2 a' - 52) 26).
  assert (He : 26 <= e <= e') by (subst e e'; lia).
  destruct (Z.eq_dec e e') as [<-|Hne].
  - apply Z.mul_le_mono_nonneg_r; [apply Z.pow_nonneg; lia|].
    apply round_half_even_mono; [|lia].
    pose proof (Z.pow_pos_nonneg 2 e). nia.
  - assert (He' : e' = Z.log2 a' - 52) by (subst e e'; lia).
    assert (HeL : Z.log2 a <= e + 52) by (subst e; lia).
    assert (HE : 0 < 2 ^ e) by (apply Z.pow_pos_nonneg; lia).
    assert (HE' : 0 < 2 ^ e') by (apply Z.pow_pos_nonneg; lia).
    (* below *)
    assert (Hup : round_half_even x (d * 2 ^ e) <= 2 ^ 53).
    { apply round_half_even_upper; [nia|].
      pose proof (log2_upper a ltac:(lia)) as Hlt.
      assert (2 ^ (Z.log2 a + 1) <= 2 ^ (e + 53))
        by (apply Z.pow_le_mono_r; lia).
      assert (x < d * (a + 1)).
      { subst a. pose proof (Z.div_mod x d ltac:(lia)).
        pose proof (Z.mod_pos_bound x d Hd). nia. }
      assert (Hp : 2 ^ (e + 53) = 2 ^ 53 * 2 ^ e)
        by (rewrite Z.pow_add_r by lia; ring).
      assert (d * (a + 1) <= d * 2 ^ (e + 53)) by (apply Z.mul_le_mono_nonneg_l; lia).
      rewrite Hp in *. lia. }
    assert (Hlow : 2 ^ 52 <= round_half_even x' (d * 2 ^ e')).
    { apply round_half_even_lower; [nia|].
      assert (0 < a').
      { destruct (Z.eq_dec a' 0) as [H0|]; [|lia].
        rewrite H0 in He'. cbn in He'. lia. }
      pose proof (Z.log2_spec a' ltac:(lia)) as [Hlo _].
      replace (Z.log2 a') with (e' + 52) in Hlo by lia.
      rewrite Z.pow_add_r in Hlo by lia.
      assert (d * a' <= x').
      { subst a'. pose proof (Z.div_mod x' d ltac:(lia)).
        pose proof (Z.mod_pos_bound x' d Hd). nia. }
      nia. }
    assert (Hpow : 2 ^ 53 * 2 ^ e <= 2 ^ 52 * 2 ^ e').
    { rewrite <- !Z.pow_add_r by lia. apply Z.pow_le_mono_r; lia. }
    nia.
Qed.

Lemma bitrate_mono b b' :
  0 <= b <= b' ->
  Math_round (double_div (b * 8) 1000) <= Math_round (double_div (b' * 8) 1000).
Proof.
  intros [Hb Hle]. unfold double_div.
  destruct (Z.ltb_spec (b * 8) 0); [lia|].
  destruct (Z.ltb_spec (b' * 8) 0); [lia|].
  apply Math_round_mono, double_pos_mono; lia.
Qed.

(** Below 2^52 bytes the rounding of the division cannot carry the quotient
    across a half-integer: [Math.round] gives the integer nearest to the
    exact quotient. *)
Lemma bitrate_nearest b :
  double_exact b ->
  Math_round (double_div (b * 8) 1000) = nearest_integer (b * 8) 1000.
Proof.
  intros [Hb Hlt]. unfold nearest_integer, double_div.
  change (2 * 1000) with 2000.
  destruct (Z.ltb_spec (b * 8) 0); [lia|].
  unfold double_pos.
  set (x := b * 8 * scale).
  set (e := Z.max (Z.log2 (x / 1000) - 52) 26).
  assert (HS : scale = 2 ^ 1100) by reflexivity.
  assert (He : 26 <= e <= 1093).
  { subst e. split; [lia|]. apply Z.max_lub; [|lia].
    assert (Ha : 0 <= x / 1000) by (apply Z.div_pos; subst x; lia).
    destruct (Z.eq_dec (x / 1000) 0) as [->|Hne]; [cbn; lia|].
    assert (Hlog : Z.log2 (x / 1000) < 1146); [|lia].
    apply Z.log2_lt_pow2; [lia|].
    apply Z.div_lt_upper_bound; [lia|].
    subst x. rewrite HS.
    replace (2 ^ 1146) with (2 ^ 46 * 2 ^ 1100) by (rewrite <- Z.pow_add_r; by lia).
    pose proof (Z.pow_pos_nonneg 2 1100 ltac:(lia) ltac:(lia)).
    change (2 ^ 52) with 4503599627370496 in Hlt.
    change (2 ^ 46) with 70368744177664. nia. }
  set (E := 2 ^ e). set (N := 2 ^ (1100 - e)).
  assert (HE : 0 < E) by (apply Z.pow_pos_nonneg; lia).
  assert (HN : 128 <= N).
  { subst N. change 128 with (2 ^ 7). apply Z.pow_le_mono_r; lia. }
  assert (HSN : scale = N * E).
  { subst N E. rewrite <- Z.pow_add_r by lia. rewrite HS. f_equal. lia. }
  set (m := round_half_even x (1000 * E)).
  pose proof (round_half_even_near x (1000 * E) ltac:(lia)) as Hnear.
  fold m in Hnear.
  assert (Hm : 2 * (m * 1000) - 1000 <= 2 * (b * 8 * N)
               <= 2 * (m * 1000) + 1000).
  { subst x. rewrite HSN in Hnear. split; nia. }
  unfold Math_round. rewrite HSN.
  replace (2 * (m * E) + N * E) with ((2 * m + N) * E) by ring.
  replace (2 * (N * E)) with ((2 * N) * E) by ring.
  rewrite Z.div_mul_cancel_r by lia.
  set (k := (2 * (b * 8) + 1000) / 2000).
  pose proof (Z.div_mod (2 * (b * 8) + 1000) 2000 ltac:(lia)) as Hdm.
  pose proof (Z.mod_pos_bound (2 * (b * 8) + 1000) 2000 ltac:(lia)) as Hr.
  fold k in Hdm.
  assert (Hk : 125 * k <= b + 62 /\ b + 63 <= 125 * k + 125) by lia.
  symmetry. apply Z.div_unique with (r := 2 * m + N - 2 * N * k).
  - left. nia.
  - ring.
Qed.

Lemma stats_forEach_spec stats s :
  stats_forEach stats s =
    mkRes (Val tt)
      (match last_inbound_video stats with
       | Some r => set_streamQuality (mkQuality (fps_of r) (bitrate_of r)) s
       | None => s
       end) [].
Proof.
  unfold last_inbound_video. revert s.
  induction stats as [|r stats IH]; intros s; [reflexivity|].
  cbn [stats_forEach]. unfold bind at 1.
  rewrite filter_cons.
  destruct (decide (r_type r = "inbound-rtp" /\ r_kind r = "video")) as [Hv|Hv].
  - rewrite decide_True by exact Hv.
    unfold modify at 1. cbn. rewrite IH.
    cbn. f_equal.
    destruct (filter inbound_video stats) as [|r' l] eqn:Hf; [done|].
    change (last (r :: r' :: l)) with (last (r' :: l)).
    destruct (last (r' :: l)) as [r0|] eqn:Hl.
    + by destruct_state s.
    + by apply last_None in Hl.
  - rewrite decide_False by exact Hv. unfold skip, ret. cbn. by rewrite IH.
Qed.

Lemma streamQuality_set q s : streamQuality (set_streamQuality q s) = q.
Proof. by destruct_state s. Qed.

Lemma pc_ontrack_interval P h stream s :
  videoRef s <> None ->
  timers (res_state (pc_ontrack P h (Some stream) s))
    = timers s ++ [mkTimer (nextTimer s) (now P + 2000) 2000 true (CbStats h)].
Proof.
  unfold pc_ontrack. unfold_js. destruct_state s. cbn.
  by destruct s_vid.
Qed.

Lemma stats_tick_attached h stream s :
  videoRef s = Some (Some stream) ->
  stats_tick h s = mkRes (Val tt) s [EffGetStats h].
Proof. unfold stats_tick. unfold_js. destruct_state s. cbn. by intros ->. Qed.

Lemma pc_ontrack_video P h stream s :
  videoRef s <> None ->
  videoRef (res_state (pc_ontrack P h (Some stream) s)) = Some (Some stream).
Proof.
  unfold pc_ontrack. unfold_js. destruct_state s. cbn.
  by destruct s_vid.
Qed.

(** Beyond that range the two part: here the quotient is 72057594037920.496,
    the nearest double is 72057594037920.5, and [Math.round] goes up. *)
Lemma bitrate_beyond_exact_range :
  let r := mkReport "inbound-rtp" "video" (Some 30) 9007199254740062 in
  bitrate_of r = 72057594037921 /\
  nearest_integer (bytesReceived r * 8) 1000 = 72057594037920.
Proof. by vm_compute. Qed.

(** C10. The quality monitor samples on a 2000 ms interval: the track
    event puts a repeating timer of 2000 ms on the queue, whose callback
    asks the peer connection for its statistics.  Each sample publishes,
    for the last inbound video report it holds, the bitrate
    [Math.round(bytesReceived * 8 / 1000)], computed from the cumulative
    byte counter alone; for byte counts below 2^52 this is the integer
    nearest to the exact quotient.  The published value is therefore
    non-decreasing from one sample to the next as long as the counter is
    (one uninterrupted connection); it is no rate over the interval. *)
Theorem bitrate_is_cumulative (P P' : Platform) (h stream : nat) (s s' : State)
    (stats stats' : list Report) (r r' : Report) :
  (videoRef s <> None ->
   let s1 := res_state (pc_ontrack P h (Some stream) s) in
   timers s1
     = timers s ++ [mkTimer (nextTimer s) (now P + 2000) 2000 true (CbStats h)] /\
   run_callback P' (CbStats h) s1 = mkRes (Val tt) s1 [EffGetStats h]) /\
  (last_inbound_video stats = Some r ->
   let published := bitrate (streamQuality (res_state (stats_forEach stats s))) in
   published = Math_round (double_div (bytesReceived r * 8) 1000) /\
   (double_exact (bytesReceived r) ->
    published = (2 * (bytesReceived r * 8) + 1000) / 2000 /\
    2000 * published <= 2 * (bytesReceived r * 8) + 1000 < 2000 * (published + 1))) /\
  (last_inbound_video stats = Some r ->
   last_inbound_video stats' = Some r' ->
   0 <= bytesReceived r <= bytesReceived r' ->
   bitrate (streamQuality (res_state (stats_forEach stats s)))
     <= bitrate (streamQuality (res_state (stats_forEach stats' s')))).
Proof.
  split; [|split].
  - intros Hv. cbn zeta. split; [by apply pc_ontrack_interval|].
    cbn [run_callback]. apply (stats_tick_attached h stream).
    by apply pc_ontrack_video.
  - intros Hr published. subst published.
    rewrite stats_forEach_spec, Hr. cbn [res_state]. rewrite streamQuality_set.
    cbn [bitrate]. unfold bitrate_of. split; [done|].
    intros Hb. rewrite (bitrate_nearest _ Hb). unfold nearest_integer.
    change (2 * 1000) with 2000. split; [done|].
    pose proof (Z.mul_div_le (2 * (bytesReceived r * 8) + 1000) 2000 ltac:(lia)).
    pose proof (Z.mul_succ_div_gt (2 * (bytesReceived r * 8) + 1000) 2000 ltac:(lia)).
    lia.
  - intros Hr Hr' Hle. rewrite !stats_forEach_spec, Hr, Hr'.
    cbn [res_state]. rewrite !streamQuality_set. cbn [bitrate].
    unfold bitrate_of. by apply bitrate_mono.
Qed.

Lemma bitrate_is_cumulative_witness :
  let sample1 := [mkReport "inbound-rtp" "video" (Some 30) 125062] in
  let sample2 := [mkReport "inbound-rtp" "audio" None 7;
                  mkReport "inbound-rtp" "video" (Some 30) 250000] in
  bitrate (streamQuality (res_state (stats_forEach sample1 mounted))) = 1000 /\
  bitrate (streamQuality (res_state (stats_forEach sample1 mounted)))
    <= bitrate (streamQuality (res_state (stats_forEach sample2 mounted))).
Proof.
  intros sample1 sample2.
  pose proof (bitrate_is_cumulative (calm 0) (calm 2000) 0 0 mounted mounted
                sample1 sample2
                (mkReport "inbound-rtp" "video" (Some 30) 125062)
                (mkReport "inbound-rtp" "video" (Some 30) 250000)) as [_ [H1 H2]].
  assert (Hb1 : double_exact 125062) by (unfold double_exact; lia).
  split.
  - exact (eq_trans (proj1 (proj2 (H1 eq_refl) Hb1)) eq_refl).
  - apply H2; [reflexivity | reflexivity | cbn; lia].
Defined.

(** ** Teardown *)

Lemma stopStream_returns P s : res_val (stopStream P s) = Val tt.
Proof.
  unfold stopStream. unfold_js. destruct_state s. cbn.
  destruct s_rt, s_si, s_dc as [d|], s_pc as [p|], s_vid as [[stream|]|]; cbn;
    oracles P; reflexivity.
Qed.




Lemma stopStream_context P s :
  let s' := res_state (stopStream P s) in
  webrtcRef s' = mkWebRTC None None None 0 /\
  reconnectTimeoutRef s' = None /\
  statsIntervalRef s' = None /\
  isStreaming s' = false /\
  streamQuality s' = mkQuality 0 0 /\
  pendingCandidatesRef s' = pendingCandidatesRef s /\
  arrays s' = arrays s /\
  (forall t, In t (timers s') ->
     In t (timers s) /\
     reconnectTimeoutRef s <> Some (t_handle t) /\
     statsIntervalRef s <> Some (t_handle t)).
Proof.
  unfold stopStream. unfold_js. destruct_state s. cbn.
  destruct s_rt, s_si, s_dc as [d|], s_pc as [p|], s_vid as [[stream|]|]; cbn;
    oracles P;
    repeat split; try done;
    repeat match goal with
    | H : In _ (filter _ _) |- _ =>
        apply list_elem_of_In, list_elem_of_filter in H; destruct H as [? H];
        apply list_elem_of_In in H
    end; try done; congruence.
Qed.

Lemma stopStream_closes P s :
  (forall d, dc (webrtcRef s) = Some d -> In (EffCloseDc d) (res_eff (stopStream P s))) /\
  (forall p, pc (webrtcRef s) = Some p ->
     (forall d, dc (webrtcRef s) = Some d -> dcCloseThrows P d = None) ->
     In (EffClosePc p) (res_eff (stopStream P s))).
Proof.
  unfold stopStream. unfold_js. destruct_state s. cbn. split.
  - intros d ->.
    destruct s_rt, s_si, s_pc as [p|], s_vid as [[stream|]|]; cbn;
      repeat match goal with
      | |- context [dcCloseThrows P ?d] => destruct (dcCloseThrows P d); cbn
      | |- context [pcCloseThrows P ?d] => destruct (pcCloseThrows P d); cbn
      | |- context [trackStopThrows P ?d] => destruct (trackStopThrows P d); cbn
      end; tauto.
  - intros p -> Hd.
    destruct s_rt, s_si, s_dc as [d|], s_vid as [[stream|]|]; cbn;
      rewrite ?(Hd _ eq_refl); cbn;
      repeat match goal with
      | |- context [pcCloseThrows P ?d] => destruct (pcCloseThrows P d); cbn
      | |- context [trackStopThrows P ?d] => destruct (trackStopThrows P d); cbn
      end; tauto.
Qed.










(** ** The reconnect policy *)

Lemma dc_onclose_below_cap P sessionId s :
  reconnectAttempts (webrtcRef s) < 3 ->
  let s' := res_state (dc_onclose P sessionId s) in
  timers s' = timers s ++
    [mkTimer (nextTimer s) (now P + 2000 * reconnectAttempts (webrtcRef s))
       (2000 * reconnectAttempts (webrtcRef s)) false (CbReconnect sessionId)] /\
  reconnectTimeoutRef s' = Some (nextTimer s) /\
  webrtcRef s' = webrtcRef s.
Proof.
  intros Hlt. unfold dc_onclose, reconnectDelay. unfold_js. destruct_state s.
  cbn in *. apply Z.ltb_lt in Hlt. by rewrite Hlt.
Qed.

Lemma dc_onclose_at_cap P sessionId s :
  3 <= reconnectAttempts (webrtcRef s) ->
  timers (res_state (dc_onclose P sessionId s)) = timers s /\
  In gave_up (res_eff (dc_onclose P sessionId s)).
Proof.
  intros Hge. unfold dc_onclose, gave_up. unfold_js. destruct_state s.
  cbn in *. apply Z.ltb_ge in Hge. rewrite Hge. cbn. tauto.
Qed.


Lemma with_attempts_view n s :
  webrtcRef (with_attempts n s)
    = mkWebRTC (pc (webrtcRef s)) (dc (webrtcRef s)) (sessionId (webrtcRef s)) n /\
  timers (with_attempts n s) = timers s /\
  conns (with_attempts n s) = conns s /\
  reconnectTimeoutRef (with_attempts n s) = reconnectTimeoutRef s /\
  isBackendConnected (with_attempts n s) = isBackendConnected s.
Proof. unfold with_attempts, set_reconnectAttempts, modify. by destruct_state s. Qed.

(** A reconnect attempt counts itself, announces itself and is refused. *)
Lemma reconnect_spec P sessionId s :
  reconnect P sessionId s
    = mkRes (Val tt) (with_attempts (reconnectAttempts (webrtcRef s) + 1) s)
        (attempt_report (reconnectAttempts (webrtcRef s) + 1)).
Proof.
  unfold reconnect, startStream_of, with_attempts, attempt_report. unfold_js.
  by destruct_state s.
Qed.





(** ** Relations every callback respects *)

Section Respects.
Variable R : State -> State -> Prop.
Hypothesis R_refl : forall s, R s s.
Hypothesis R_trans : forall s1 s2 s3, R s1 s2 -> R s2 s3 -> R s1 s3.

Lemma Respects_ret {A} (a : A) : Respects R (ret a).
Proof using R_refl. intros s. apply R_refl. Qed.

Lemma Respects_gets {A} (f : State -> A) : Respects R (gets f).
Proof using R_refl. intros s. apply R_refl. Qed.

Lemma Respects_emit e : Respects R (emit e).
Proof using R_refl. intros s. apply R_refl. Qed.

Lemma Respects_throw {A} e : Respects R (@throw A e).
Proof using R_refl. intros s. apply R_refl. Qed.

Lemma Respects_bind {A B} (m : M A) (f : A -> M B) :
  Respects R m -> (forall a, Respects R (f a)) -> Respects R (bind m f).
Proof using R_trans.
  intros Hm Hf s. unfold bind. specialize (Hm s).
  destruct (m s) as [[a|x] s1 e1]; cbn in *; [|done].
  specialize (Hf a s1). destruct (f a s1) as [v s2 e2]; cbn in *.
  by eapply R_trans.
Qed.

Lemma Respects_try_catch {A} (m : M A) (h : Err -> M A) :
  Respects R m -> (forall e, Respects R (h e)) -> Respects R (try_catch m h).
Proof using R_trans.
  intros Hm Hh s. unfold try_catch. specialize (Hm s).
  destruct (m s) as [[a|x] s1 e1]; cbn in *; [done|].
  specialize (Hh x s1). destruct (h x s1) as [v s2 e2]; cbn in *.
  by eapply R_trans.
Qed.
End Respects.

(** One step of a proof that a callback respects a relation: [refl] and
    [trans] prove the relation reflexive and transitive, [prim] deals with
    the operations that touch the timers. *)
Ltac respects_step refl trans prim :=
  first
    [ apply (Respects_ret _ refl) | apply (Respects_gets _ refl)
    | apply (Respects_emit _ refl) | apply (Respects_throw _ refl)
    | prim
    | apply (Respects_bind _ trans); [|intros ?]
    | apply (Respects_try_catch _ trans); [|intros ?]
    | match goal with
      | |- Respects _ (match ?x with _ => _ end) => destruct x
      end ].

(** *** What can schedule a reconnection *)

















(** *** The order of timer handles *)

Lemma order_refl s : keeps_order s s.
Proof. by intros H. Qed.

Lemma order_trans s1 s2 s3 :
  keeps_order s1 s2 -> keeps_order s2 s3 -> keeps_order s1 s3.
Proof. unfold keeps_order. tauto. Qed.

Lemma Orderly_modify f :
  (forall s, timers (f s) = timers s /\ nextTimer (f s) = nextTimer s) ->
  Orderly (modify f).
Proof.
  intros Hf s Hk t Ht. cbn in *. destruct (Hf s) as [Ht' Hn].
  rewrite Hn. apply Hk. by rewrite <- Ht'.
Qed.

Lemma Orderly_clearTimeout h : Orderly (clearTimeout h).
Proof.
  intros s Hk t Ht. unfold clearTimeout, modify in *. destruct_state s. cbn in *.
  apply Hk. apply list_elem_of_In, list_elem_of_filter in Ht.
  apply list_elem_of_In, Ht.
Qed.

Lemma Orderly_setTimer P repeat cb delay : Orderly (setTimer P repeat cb delay).
Proof.
  intros s Hk t Ht. unfold setTimer in *. unfold_js. destruct_state s. cbn in *.
  apply in_app_or in Ht as [Ht|[<-|[]]]; [|cbn; lia].
  specialize (Hk t Ht). cbn in Hk. lia.
Qed.

Lemma Orderly_reschedule P h :
  Orderly (modify (fun s =>
    set_timers
      (map (fun t' =>
              if bool_decide (t_handle t' = h)
              then mkTimer h (now P + t_delay t') (t_delay t') true (t_cb t')
              else t')
           (timers s)) s)).
Proof.
  intros s Hk t Ht. unfold modify in *. destruct_state s. cbn in *.
  apply in_map_iff in Ht as (t0 & Heq & Ht0). specialize (Hk t0 Ht0).
  destruct (bool_decide (t_handle t0 = h)) eqn:Hb; subst t; [|done].
  apply bool_decide_eq_true in Hb. cbn. by rewrite <- Hb.
Qed.

Ltac orderly_prim :=
  first
    [ apply Orderly_clearTimeout
    | apply Orderly_reschedule
    | apply Orderly_setTimer
    | apply Orderly_modify; by intros [] ].

Ltac orderly := unfold Orderly; repeat respects_step order_refl order_trans orderly_prim.

Lemma Orderly_stopStream P : Orderly (stopStream P).
Proof.
  unfold stopStream, addDebugLog, skip, call, clearInterval. orderly.
Qed.

Lemma Orderly_startStream_of connected P sessionId :
  Orderly (startStream_of connected P sessionId).
Proof.
  unfold startStream_of, startStream_catch, createPeerConnection, newArray,
    set_phase, addDebugLog, toast, skip.
  orderly; apply Orderly_stopStream.
Qed.

Lemma Orderly_startStream P sessionId : Orderly (startStream P sessionId).
Proof. unfold startStream. orderly. apply Orderly_startStream_of. Qed.

Lemma Orderly_stats_forEach stats : Orderly (stats_forEach stats).
Proof.
  intros s. rewrite stats_forEach_spec. cbn.
  destruct (last_inbound_video stats); [|apply order_refl].
  unfold keeps_order, timers_known. by destruct_state s.
Qed.

Lemma Orderly_handler P ev : Orderly (handler P ev).
Proof.
  destruct ev; cbn [handler];
    try apply Orderly_startStream; try apply Orderly_stopStream;
    try apply Orderly_stats_forEach;
    unfold checkHealth, resume, in_try, flush_loop, startStream_catch, newArray,
      set_phase, set_pcId, pc_onicecandidate, candidate_post_failed, pc_ontrack,
      pc_onconnectionstatechange, dc_onopen, dc_onmessage, dc_onclose, dc_onerror,
      fire, run_callback, reconnect, stats_tick, remove_indicator, sendScroll_fn,
      handleVideoClick, sendScroll, debounce, sendType, push, setInterval,
      setTimeout, set_reconnectAttempts, addDebugLog, toast, toast_id, skip;
    orderly; first [apply Orderly_stopStream | apply Orderly_startStream_of].
Qed.

(** The timer queue of the page is in order from the first render on. *)
Lemma timers_known_run trace : forall s,
  timers_known s -> timers_known (fst (run trace s)).
Proof.
  induction trace as [|[P ev] trace IH]; intros s Hk; [done|].
  rewrite run_cons. cbn [fst]. apply IH. by apply (Orderly_handler P ev s).
Qed.

Lemma timers_known_initial : timers_known initial.
Proof. intros t []. Qed.

(** *** What can make a connection *)

Lemma conns_refl s : keeps_conns s s.
Proof. reflexivity. Qed.

Lemma conns_trans s1 s2 s3 :
  keeps_conns s1 s2 -> keeps_conns s2 s3 -> keeps_conns s1 s3.
Proof. unfold keeps_conns. congruence. Qed.

Lemma Idle_modify f :
  (forall s, length (conns (f s)) = length (conns s)) -> Idle (modify f).
Proof. intros Hf s. apply Hf. Qed.

Ltac idle_prim :=
  apply Idle_modify; intros []; cbn; by rewrite ?length_alter.

Ltac idle := unfold Idle; repeat respects_step conns_refl conns_trans idle_prim.

Lemma Idle_stopStream P : Idle (stopStream P).
Proof.
  unfold stopStream, addDebugLog, skip, call, clearInterval, clearTimeout. idle.
Qed.

Lemma Idle_reconnect P sessionId : Idle (reconnect P sessionId).
Proof.
  intros s. rewrite reconnect_spec. unfold keeps_conns. cbn [res_state].
  destruct (with_attempts_view (reconnectAttempts (webrtcRef s) + 1) s)
    as (_ & _ & Hc & _).
  by rewrite Hc.
Qed.

Lemma Idle_stats_forEach stats : Idle (stats_forEach stats).
Proof.
  intros s. rewrite stats_forEach_spec. unfold keeps_conns. cbn.
  destruct (last_inbound_video stats); [|done]. by destruct_state s.
Qed.

Lemma Idle_handler P ev :
  (forall sessionId, ev <> EvStartStream sessionId) -> Idle (handler P ev).
Proof.
  intros Hev. destruct ev; cbn [handler];
    try (exfalso; by eapply Hev);
    try apply Idle_stopStream; try apply Idle_stats_forEach;
    unfold checkHealth, resume, in_try, flush_loop, startStream_catch, newArray,
      set_phase, set_pcId, pc_onicecandidate, candidate_post_failed, pc_ontrack,
      pc_onconnectionstatechange, dc_onopen, dc_onmessage, dc_onclose, dc_onerror,
      fire, run_callback, stats_tick, remove_indicator, sendScroll_fn,
      handleVideoClick, sendScroll, debounce, sendType, push, setInterval,
      setTimeout, setTimer, clearTimeout, set_reconnectAttempts, addDebugLog,
      toast, toast_id, skip;
    idle; first [apply Idle_stopStream | apply Idle_reconnect].
Qed.

(** No event but a call of [startStream] by the stream effect makes a
    connection; a timeout, in particular, never does. *)
Lemma connects_only_by_effect P ev s :
  connects s (fst (step P ev s)) -> exists sessionId, ev = EvStartStream sessionId.
Proof.
  intros Hc.
  assert (Hq : (forall sessionId, ev <> EvStartStream sessionId) -> False).
  { intros Hne. exact (Hc (Idle_handler P ev Hne s)). }
  destruct ev; try (exfalso; apply Hq; intros ?; discriminate).
  by eexists.
Qed.

(** *** The stream effect *)

Lemma alter_last {A} (f : A -> A) (l : list A) (x : A) :
  alter f (length l) (l ++ [x]) = l ++ [f x].
Proof. induction l as [|y l IH]; [done|]. cbn. by rewrite IH. Qed.

(** With the backend connected, [startStream] tears the context down and
    makes a new connection. *)
Lemma startStream_connected P sessionId s :
  isBackendConnected s = true ->
  let stop := stopStream P s in
  let r := startStream P sessionId s in
  let h := length (conns s) in
  res_val r = Val tt /\
  res_eff r =
    EffLog Log ("Starting stream for session " +:+ sessionId) :: res_eff stop
    ++ [EffLog Log ("Creating peer connection for session " +:+ sessionId);
        EffCreateOffer h] /\
  webrtcRef (res_state r) = mkWebRTC (Some h) (Some h) (Some sessionId) 0 /\
  conns (res_state r) = conns s ++ [mkConn sessionId JUndefined AwaitCreateOffer] /\
  pending (res_state r) = [] /\
  timers (res_state r) = timers (res_state stop) /\
  reconnectTimeoutRef (res_state r) = None /\
  statsIntervalRef (res_state r) = None /\
  isStreaming (res_state r) = false.
Proof.
  unfold startStream, startStream_of, stopStream, createPeerConnection, pending.
  unfold_js. destruct_state s. cbn. intros ->. cbn.
  destruct s_rt, s_si, s_dc as [d|], s_pc as [p|], s_vid as [[stream|]|]; cbn;
    oracles P;
    rewrite ?alter_last, ?lookup_app_r, ?Nat.sub_diag by lia; cbn;
    repeat split; try done; by rewrite <- ?app_assoc.
Qed.

Lemma startStream_refused P sessionId s :
  isBackendConnected s = false ->
  startStream P sessionId s
    = mkRes (Val tt) s [EffToast ToastError "Backend not connected" JUndefined].
Proof.
  unfold startStream, startStream_of. unfold_js. destruct_state s. cbn.
  by intros ->.
Qed.

Lemma stopStream_frame P s :
  isBackendConnected (res_state (stopStream P s)) = isBackendConnected s /\
  nextTimer (res_state (stopStream P s)) = nextTimer s /\
  conns (res_state (stopStream P s)) = conns s.
Proof.
  unfold stopStream. unfold_js. destruct_state s. cbn.
  destruct s_rt, s_si, s_dc as [d|], s_pc as [p|], s_vid as [[stream|]|]; cbn;
    oracles P; done.
Qed.

Lemma checkHealth_spec r s :
  checkHealth r s
    = mkRes (Val tt) (set_isBackendConnected (healthy r) s) [health_line r].
Proof. by destruct r. Qed.

Lemma flag_view b s :
  isBackendConnected (set_isBackendConnected b s) = b /\
  webrtcRef (set_isBackendConnected b s) = webrtcRef s /\
  conns (set_isBackendConnected b s) = conns s /\
  set_isBackendConnected (isBackendConnected s) s = s.
Proof. by destruct_state s. Qed.

(** A health result that leaves the flag as it is only writes its line to
    the debug log. *)
Lemma health_settled_unchanged P r selectedSession s :
  healthy r = isBackendConnected s ->
  health_settled P r selectedSession s = mkRes (Val tt) s [health_line r].
Proof.
  intros Hsame. unfold health_settled, bind, gets. rewrite checkHealth_spec.
  destruct (flag_view (healthy r) s) as (Hb & _). cbn beta iota. rewrite Hb, Hsame.
  destruct (flag_view (healthy r) s) as (_ & _ & _ & Hs). rewrite Hs.
  by destruct (isBackendConnected s).
Qed.

(** One that changes it is followed by the clean-up of the stream effect
    and by the effect itself. *)
Lemma health_settled_changed P r selectedSession s :
  healthy r <> isBackendConnected s ->
  let stop := stopStream P (set_isBackendConnected (healthy r) s) in
  let eff := stream_effect P selectedSession (res_state stop) in
  res_state (health_settled P r selectedSession s) = res_state eff /\
  res_eff (health_settled P r selectedSession s)
    = health_line r :: res_eff stop ++ res_eff eff.
Proof.
  intros Hdiff. cbn zeta. unfold health_settled, bind, gets.
  rewrite checkHealth_spec. cbn beta iota.
  destruct (flag_view (healthy r) s) as (Hb & _). rewrite Hb.
  replace (Bool.eqb (isBackendConnected s) (healthy r)) with false
    by (destruct (isBackendConnected s), (healthy r); done).
  pose proof (stopStream_returns P (set_isBackendConnected (healthy r) s)) as Hv.
  destruct (stopStream P _) as [v s1 e1]. cbn in Hv. subst v. cbn.
  by destruct (stream_effect P selectedSession s1) as [v2 s2 e2].
Qed.

(** The backend is found healthy again while a session is selected: the
    stream of that session is started. *)
Lemma health_regained P r sessionId s :
  isBackendConnected s = false -> healthy r = true -> sessionId <> "" ->
  let res := health_settled P r (Some sessionId) s in
  let h := length (conns s) in
  In (EffCreateOffer h) (res_eff res) /\
  webrtcRef (res_state res) = mkWebRTC (Some h) (Some h) (Some sessionId) 0 /\
  conns (res_state res) = conns s ++ [mkConn sessionId JUndefined AwaitCreateOffer].
Proof.
  intros Hoff Hon Hsid. cbn zeta.
  destruct (health_settled_changed P r (Some sessionId) s) as [Hs He];
    [congruence|]. cbn zeta in Hs, He. rewrite Hs, He. clear Hs He.
  cbn [stream_effect]. apply String.eqb_neq in Hsid. rewrite Hsid.
  set (s1 := set_isBackendConnected (healthy r) s).
  destruct (stopStream_frame P s1) as (Hb2 & _ & Hc2).
  destruct (flag_view (healthy r) s) as (Hb1 & _ & Hc1 & _). fold s1 in Hb1, Hc1.
  set (s2 := res_state (stopStream P s1)) in *.
  assert (Hbc : isBackendConnected s2 = true) by congruence.
  destruct (startStream_connected P sessionId s2 Hbc) as (_ & Heff & Hw & Hc & _).
  cbn zeta in Heff, Hw, Hc. rewrite Hc2, Hc1 in Heff, Hw, Hc.
  split; [|by split].
  right. apply in_or_app. right. rewrite Heff. right.
  apply in_or_app. right. right. by left.
Qed.

(** The backend is found unhealthy while a session is selected and
    streamed: the stream is torn down and is not started again. *)
Lemma health_lost P r sessionId s :
  isBackendConnected s = true -> healthy r = false -> sessionId <> "" ->
  let res := health_settled P r (Some sessionId) s in
  webrtcRef (res_state res) = mkWebRTC None None None 0 /\
  conns (res_state res) = conns s /\
  (forall d, dc (webrtcRef s) = Some d -> In (EffCloseDc d) (res_eff res)) /\
  In (EffToast ToastError "Backend not connected" JUndefined) (res_eff res).
Proof.
  intros Hon Hoff Hsid. cbn zeta.
  destruct (health_settled_changed P r (Some sessionId) s) as [Hs He];
    [congruence|]. cbn zeta in Hs, He. rewrite Hs, He. clear Hs He.
  cbn [stream_effect]. apply String.eqb_neq in Hsid. rewrite Hsid.
  set (s1 := set_isBackendConnected (healthy r) s).
  destruct (stopStream_frame P s1) as (Hb2 & _ & Hc2).
  destruct (flag_view (healthy r) s) as (Hb1 & Hw1 & Hc1 & _). fold s1 in Hb1, Hw1, Hc1.
  pose proof (stopStream_context P s1) as (Hw2 & _).
  destruct (stopStream_closes P s1) as [Hd _].
  set (s2 := res_state (stopStream P s1)) in *.
  rewrite (startStream_refused P sessionId s2) by congruence. cbn [res_state res_eff].
  split; [done|]. split; [congruence|]. split.
  - intros d Hdc. right. apply in_or_app. left. apply Hd. by rewrite Hw1.
  - right. apply in_or_app. right. by left.
Qed.

(** ** The reconnect attempts, on the code *)

(** Nothing checks the counter when it is incremented.  Should the close
    events of four channels that were replaced arrive before the first of
    their timeouts fires, the fourth attempt is announced as attempt 4 of
    3. *)
Lemma attempts_can_pass_the_cap :
  let r := run [(calm 0, EvStartStream "s1"); (calm 10, EvStartStream "s2");
                (calm 20, EvStartStream "s3"); (calm 30, EvStartStream "s4");
                (calm 40, EvStartStream "s5");
                (calm 41, EvDcClose 0%nat); (calm 41, EvDcClose 1%nat);
                (calm 41, EvDcClose 2%nat); (calm 41, EvDcClose 3%nat);
                (calm 42, EvTimer 1%nat); (calm 42, EvTimer 2%nat);
                (calm 42, EvTimer 3%nat); (calm 42, EvTimer 4%nat)] mounted in
  reconnectAttempts (webrtcRef (fst r)) = 4 /\
  In (EffToast ToastInfo "Attempting to reconnect... (4/3)" JUndefined) (snd r).
Proof. split; [by vm_compute|]. vm_compute. tauto. Qed.

(** C2, evaluated on the code.  A reconnect attempt counts itself,
    announces itself and is refused with "Backend not connected", whatever
    the state of the backend: it makes no connection, and no timeout ever
    does.  So when the control channel of a running stream is lost, there
    is one attempt, announced as 1 of 3; after it no timer is pending, no
    further attempt follows, the branch that gives up is not reached, and
    the context still holds the dead connection with the counter at 1.  Nor
    is the counter of a context monotone: after the user has turned to
    another session, the close event of the channel that was replaced makes
    an attempt that is counted on the new context, and when the channel of
    the new stream opens the counter goes back from 1 to 0. *)
Theorem reconnect_never_reconnects :
  (forall P sessionId s,
     let n := reconnectAttempts (webrtcRef s) + 1 in
     reconnect P sessionId s
       = mkRes (Val tt) (with_attempts n s)
           [EffToast ToastInfo ("Attempting to reconnect... (" +:+ pretty n +:+ "/3)")
              JUndefined;
            EffToast ToastError "Backend not connected" JUndefined] /\
     conns (with_attempts n s) = conns s) /\
  (forall P h s, ~ connects s (fst (step P (EvTimer h) s))) /\
  (let r := run channel_lost mounted in
   isBackendConnected (fst r) = true /\
   (exists before,
      snd r = before
              ++ [EffToast ToastInfo "Attempting to reconnect... (1/3)" JUndefined;
                  EffToast ToastError "Backend not connected" JUndefined]) /\
   ~ In gave_up (snd r) /\
   webrtcRef (fst r) = mkWebRTC (Some 0%nat) (Some 0%nat) (Some "s1") 1 /\
   timers (fst r) = [] /\
   length (conns (fst r)) = 1%nat) /\
  (let s2 := fst (run switch_sessions mounted) in
   let s3 := fst (run late_close s2) in
   let s4 := fst (step (calm 5400) (EvDcOpen 1) s3) in
   webrtcRef s2 = mkWebRTC (Some 1%nat) (Some 1%nat) (Some "s2") 0 /\
   webrtcRef s3 = mkWebRTC (Some 1%nat) (Some 1%nat) (Some "s2") 1 /\
   webrtcRef s4 = mkWebRTC (Some 1%nat) (Some 1%nat) (Some "s2") 0).
Proof.
  split; [|split; [|split]].
  - intros P sessionId s. cbn zeta. split; [apply reconnect_spec|].
    apply with_attempts_view.
  - intros P h s Hc. by destruct (connects_only_by_effect P _ s Hc).
  - cbn zeta. split; [by vm_compute|]. split.
    { exists (take 9 (snd (run channel_lost mounted))). by vm_compute. }
    split.
    { vm_compute. intros H.
      repeat (destruct H as [H|H]; [discriminate H|]). exact H. }
    by vm_compute.
  - by vm_compute.
Qed.

(** ** The liveness ping *)






(** ** The candidate buffer *)





















(** ** Debounced scrolling *)

Lemma filter_older (older : list Timer) first hk :
  (forall t, In t older -> (t_handle t < first)%nat) -> (first <= hk)%nat ->
  filter (fun t => t_handle t <> hk) older = older.
Proof.
  intros Hold Hle. induction older as [|t older IH]; [done|].
  rewrite filter_cons. rewrite decide_True.
  - f_equal. apply IH. intros t' Ht'. apply Hold. by right.
  - pose proof (Hold t (or_introl eq_refl)). lia.
Qed.

Lemma find_older (older rest : list Timer) first h :
  (forall t, In t older -> (t_handle t < first)%nat) -> (first <= h)%nat ->
  List.find (fun t => bool_decide (t_handle t = h)) (older ++ rest)
    = List.find (fun t => bool_decide (t_handle t = h)) rest.
Proof.
  intros Hold Hle. induction older as [|t older IH]; [done|].
  cbn [app List.find]. rewrite bool_decide_eq_false_2.
  - apply IH. intros t' Ht'. apply Hold. by right.
  - pose proof (Hold t (or_introl eq_refl)). lia.
Qed.

Lemma first_wheel P deltaY s :
  timers_known s ->
  let r := step P (EvWheel deltaY) s in
  debouncing (nextTimer s) (webrtcRef s) (nextTimer s) (now P + 100) deltaY (fst r) /\
  snd r = [].
Proof.
  unfold timers_known, debouncing, step, handler, sendScroll, debounce. unfold_js.
  destruct_state s. cbn. intros Hknown.
  destruct s_sct as [stale|]; cbn; (split; [|done]); repeat split; try done.
  - eexists. split; [reflexivity|]. intros t Ht.
    apply list_elem_of_In, list_elem_of_filter in Ht as [_ Ht].
    by apply Hknown, list_elem_of_In.
  - eexists. split; [reflexivity|]. done.
Qed.

Lemma next_wheel P deltaY first w hk due dy s :
  debouncing first w hk due dy s ->
  let r := step P (EvWheel deltaY) s in
  debouncing first w (S hk) (now P + 100) deltaY (fst r) /\ snd r = [].
Proof.
  unfold debouncing, step, handler, sendScroll, debounce. unfold_js.
  destruct_state s. cbn.
  intros (-> & -> & Hle & Hw & older & -> & Hold). cbn.
  split; [|done]. repeat split; try done; [lia|].
  exists older. split; [|done].
  rewrite filter_app, (filter_older older first hk Hold Hle), filter_cons.
  rewrite decide_False by (cbn; tauto). by rewrite filter_nil, app_nil_r.
Qed.

Lemma early_tick P h first w hk due dy s :
  debouncing first w hk due dy s -> now P < due -> (first <= h)%nat ->
  step P (EvTimer h) s = (s, []).
Proof.
  unfold debouncing, step, handler, fire. unfold_js.
  destruct_state s. cbn -[List.find].
  intros (-> & -> & Hle & Hw & older & -> & Hold) Hearly Hh.
  rewrite (find_older older _ first h Hold Hh). cbn -[Z.leb].
  destruct (bool_decide (hk = h)); [|done]. cbn [t_due].
  apply Z.leb_gt in Hearly. by rewrite Hearly.
Qed.

Lemma due_tick P first w hk due dy d s :
  debouncing first w hk due dy s -> due <= now P ->
  dc w = Some d -> readyState P d = Open ->
  let r := step P (EvTimer hk) s in
  snd r = [EffSend d (scroll_message dy); EffLog Log ("Scroll sent: " +:+ pretty dy)] /\
  forall t, In t (timers (fst r)) -> (t_handle t < first)%nat.
Proof.
  unfold debouncing, step, handler, fire, run_callback, sendScroll_fn. unfold_js.
  destruct_state s. cbn -[List.find].
  intros (-> & -> & Hle & <- & older & -> & Hold) Hdue Hd Hopen.
  cbn in Hd. subst s_dc.
  rewrite (find_older older _ first hk Hold Hle). cbn -[Z.leb].
  rewrite bool_decide_eq_true_2 by done. cbn [t_due].
  apply Z.leb_le in Hdue. rewrite Hdue. cbn.
  destruct (decide (readyState P d <> Open)) as [Hn|_]; [done|]. cbn.
  split; [done|].
  rewrite filter_app, (filter_older older first hk Hold Hle), filter_cons.
  rewrite decide_False by (cbn; tauto). rewrite filter_nil, app_nil_r. exact Hold.
Qed.

Lemma burst_run first w : forall items hk latest dy s,
  debouncing first w hk (latest + 100) dy s ->
  within_window first latest items ->
  let r := run (map burst_event items) s in
  debouncing first w (hk + wheels items) (last_time latest items + 100)
    (last_delta dy items) (fst r) /\
  snd r = [].
Proof.
  induction items as [|[P deltaY|P h] items IH]; intros hk latest dy s Hd Hw.
  - cbn. by rewrite Nat.add_0_r.
  - destruct Hw as [Hnow Hw]. cbn [map burst_event]. rewrite run_cons.
    destruct (next_wheel P deltaY first w hk _ dy s Hd) as [Hd1 He1].
    destruct (IH _ _ _ _ Hd1 Hw) as [Hd2 He2]. cbn zeta.
    cbn [fst snd wheels last_time last_delta]. rewrite He1, He2.
    split; [|done]. by replace (hk + S (wheels items))%nat with (S hk + wheels items)%nat by lia.
  - destruct Hw as (Hnow & Hh & Hw). cbn [map burst_event]. rewrite run_cons.
    rewrite (early_tick P h first w hk _ dy s Hd Hnow Hh).
    destruct (IH _ _ _ _ Hd Hw) as [Hd2 He2]. cbn zeta.
    cbn [fst snd wheels last_time last_delta]. by rewrite He2.
Qed.

(** C8. Let a burst of scroll events arrive, each less than the 100 ms
    debounce window after the one before, with the runtime free to look at
    the debounce timers in between.  Nothing is sent during the burst.  When
    the last timer falls due and the control channel is open, exactly one
    scroll message is sent, and it carries the delta of the last event of
    the burst; the earlier deltas are dropped with the timers that were
    cleared. *)
Theorem debounce_sends_last_delta (s : State) (P0 : Platform) (deltaY0 : Z)
    (items : list BurstItem) (Pend : Platform) (d : nat) :
  timers_known s ->
  within_window (nextTimer s) (now P0) items ->
  last_time (now P0) items + 100 <= now Pend ->
  dc (webrtcRef s) = Some d ->
  readyState Pend d = Open ->
  let burst := (P0, EvWheel deltaY0) :: map burst_event items in
  let h := (nextTimer s + wheels items)%nat in
  sends (snd (run burst s)) = [] /\
  sends (snd (run (burst ++ [(Pend, EvTimer h)]) s))
    = [(d, [("type", JStr "scroll"); ("deltaY", JNum (last_delta deltaY0 items))])].
Proof.
  intros Hknown Hw Hdue Hd Hopen. cbn zeta.
  destruct (first_wheel P0 deltaY0 s Hknown) as [Hd0 He0]. cbn zeta in Hd0, He0.
  destruct (burst_run _ _ items _ _ _ _ Hd0 Hw) as [Hd1 He1]. cbn zeta in Hd1, He1.
  destruct (due_tick Pend _ _ _ _ _ d _ Hd1 Hdue Hd Hopen) as [He2 _].
  cbn zeta in He2.
  assert (Hburst : run ((P0, EvWheel deltaY0) :: map burst_event items) s
            = (fst (run (map burst_event items) (fst (step P0 (EvWheel deltaY0) s))), [])).
  { rewrite run_cons, He0, He1. done. }
  split; [by rewrite Hburst|].
  rewrite run_app, Hburst. cbn [fst snd app run]. rewrite He2. done.
Qed.

Lemma debounce_sends_last_delta_witness :
  let s := fst (run [(calm 0, EvStartStream "s1")] mounted) in
  sends (snd (run [(calm 1000, EvWheel 120); (calm 1030, EvWheel 80);
                   (calm 1040, EvTimer 1%nat); (calm 1090, EvWheel (-40));
                   (calm 1190, EvTimer 3%nat)] s))
    = [(0%nat, [("type", JStr "scroll"); ("deltaY", JNum (-40))])].
Proof.
  intros s.
  assert (Hknown : timers_known s) by (intros t []).
  assert (Hwin : within_window (nextTimer s) (now (calm 1000))
                   [Wheel (calm 1030) 80; Tick (calm 1040) 1; Wheel (calm 1090) (-40)])
    by (vm_compute; intuition (discriminate || lia)).
  assert (Hdue : last_time (now (calm 1000))
                   [Wheel (calm 1030) 80; Tick (calm 1040) 1; Wheel (calm 1090) (-40)]
                 + 100 <= now (calm 1190)) by (vm_compute; discriminate).
  exact (proj2 (debounce_sends_last_delta s (calm 1000) 120
                  [Wheel (calm 1030) 80; Tick (calm 1040) 1; Wheel (calm 1090) (-40)]
                  (calm 1190) 0%nat Hknown Hwin Hdue eq_refl eq_refl)).
Defined.

(** ** Incoming messages never disturb the page *)

Lemma dc_onmessage_harmless_state event_data s :
  res_val (dc_onmessage event_data s) = Val tt /\
  res_state (dc_onmessage event_data s) = s /\
  sends (res_eff (dc_onmessage event_data s)) = [].
Proof.
  unfold dc_onmessage. unfold_js. destruct event_data as [data|e]; cbn; [|done].
  destruct (decide (field data "type" = JStr "pong")); cbn; [done|].
  destruct (decide (field data "type" = JStr "click_response")); cbn; [|done].
  by destruct (truthy (field data "success")).
Qed.

(** X1. Whatever arrives on the data channel, the message handler returns
    normally, leaves the state as it is and sends nothing back.  A payload
    that fails to parse leaves exactly one error line in the debug log; a
    well-formed message of a type other than [pong] and [click_response]
    leaves no trace at all. *)
Theorem dc_onmessage_harmless (event_data : Parsed) (s : State) :
  res_val (dc_onmessage event_data s) = Val tt /\
  res_state (dc_onmessage event_data s) = s /\
  sends (res_eff (dc_onmessage event_data s)) = [] /\
  (forall e, event_data = ParseThrows e ->
     res_eff (dc_onmessage event_data s)
       = [EffLog LogError ("Error parsing data channel message: " +:+ err_display e)]) /\
  (forall data, event_data = ParseOk data ->
     field data "type" <> JStr "pong" ->
     field data "type" <> JStr "click_response" ->
     res_eff (dc_onmessage event_data s) = []).
Proof.
  destruct (dc_onmessage_harmless_state event_data s) as (Hv & Hs & Hn).
  repeat split; try done.
  - by intros e ->.
  - intros data -> H1 H2. unfold dc_onmessage. unfold_js. cbn.
    destruct (decide (field data "type" = JStr "pong")); [done|].
    by destruct (decide (field data "type" = JStr "click_response")).
Qed.

Lemma dc_onmessage_harmless_witness :
  res_eff (dc_onmessage (ParseOk [("type", JStr "resize"); ("width", JNum 1280)]) mounted)
    = [].
Proof.
  apply (proj2 (proj2 (proj2 (proj2
           (dc_onmessage_harmless
              (ParseOk [("type", JStr "resize"); ("width", JNum 1280)]) mounted))))
           _ eq_refl); by vm_compute.
Defined.

(** ** A reconnect attempt while the backend is down *)

(** X2. When the reconnect timeout fires while the backend is marked as not
    connected, the attempt is counted and announced but nothing is
    attempted: [startStream] stops at its guard, so the old context stays as
    it is, no connection is made, and no further timeout is scheduled. *)
Theorem reconnect_lost_when_backend_down (P : Platform) (sessionId : string)
    (s : State) :
  isBackendConnected s = false ->
  let n := reconnectAttempts (webrtcRef s) + 1 in
  reconnect P sessionId s =
    mkRes (Val tt) (with_attempts n s)
      [EffToast ToastInfo ("Attempting to reconnect... (" +:+ pretty n +:+ "/3)")
         JUndefined;
       EffToast ToastError "Backend not connected" JUndefined] /\
  timers (with_attempts n s) = timers s /\
  conns (with_attempts n s) = conns s /\
  reconnectTimeoutRef (with_attempts n s) = reconnectTimeoutRef s.
Proof.
  intros _. cbn zeta. split; [apply reconnect_spec|].
  destruct (with_attempts_view (reconnectAttempts (webrtcRef s) + 1) s)
    as (_ & Ht & Hc & Hr & _).
  by rewrite Ht, Hc, Hr.
Qed.

Lemma reconnect_lost_when_backend_down_witness :
  res_eff (reconnect (calm 0) "s1" initial)
    = [EffToast ToastInfo "Attempting to reconnect... (1/3)" JUndefined;
       EffToast ToastError "Backend not connected" JUndefined].
Proof.
  destruct (reconnect_lost_when_backend_down (calm 0) "s1" initial eq_refl) as [H _].
  cbn zeta in H. rewrite H. reflexivity.
Defined.

(** ** Starting and failing to start a stream *)

Lemma stopStream_posts P s site : posts site (res_eff (stopStream P s)) = [].
Proof.
  unfold stopStream. unfold_js. destruct_state s. cbn.
  destruct s_rt, s_si, s_dc as [d|], s_pc as [p|], s_vid as [[stream|]|]; cbn;
    oracles P; reflexivity.
Qed.

(** X3. With the backend connected, [startStream] first tears down whatever
    context there is, exactly as [stopStream] does, and only then makes the
    new connection: the calls of the teardown come before the one
    [createOffer] of the new peer connection.  Afterwards the context holds
    the new connection with the attempt counter at 0, the candidate buffer
    is a new empty array, no reconnect timeout or stats interval is held,
    and the timers left are those the teardown left. *)
Theorem startStream_replaces_context (P : Platform) (sessionId : string)
    (s : State) :
  isBackendConnected s = true ->
  let stop := stopStream P s in
  let r := startStream P sessionId s in
  let h := length (conns s) in
  res_val r = Val tt /\
  res_eff r =
    EffLog Log ("Starting stream for session " +:+ sessionId) :: res_eff stop
    ++ [EffLog Log ("Creating peer connection for session " +:+ sessionId);
        EffCreateOffer h] /\
  webrtcRef (res_state r) = mkWebRTC (Some h) (Some h) (Some sessionId) 0 /\
  conns (res_state r) = conns s ++ [mkConn sessionId JUndefined AwaitCreateOffer] /\
  pending (res_state r) = [] /\
  timers (res_state r) = timers (res_state stop) /\
  reconnectTimeoutRef (res_state r) = None /\
  statsIntervalRef (res_state r) = None /\
  isStreaming (res_state r) = false.
Proof. apply startStream_connected. Qed.

Lemma startStream_replaces_context_witness :
  res_eff (startStream (calm 10) "s2" streaming)
    = [EffLog Log "Starting stream for session s2";
       EffLog Log "Stopping stream"; EffCloseDc 0; EffClosePc 0; EffStopTracks 7;
       EffLog Log "Creating peer connection for session s2"; EffCreateOffer 1].
Proof.
  destruct (startStream_replaces_context (calm 10) "s2" streaming eq_refl)
    as (_ & He & _).
  cbn zeta in He. rewrite He. by vm_compute.
Defined.

Lemma startStream_catch_spec P err s :
  res_val (startStream_catch P err s) = Val tt /\
  res_state (startStream_catch P err s) = res_state (stopStream P s) /\
  res_eff (startStream_catch P err s) =
    EffLog LogError ("Failed to start stream: " +:+ err_display err)
    :: start_failed err :: res_eff (stopStream P s).
Proof.
  pose proof (stopStream_returns P s) as Hv.
  unfold startStream_catch, start_failed, bind, addDebugLog, toast, emit.
  destruct (stopStream P s) as [v s' e]. cbn in *. by subst.
Qed.

Lemma resume_fails_eq P h c r s :
  conns s !! h = Some c -> fails (c_phase c) r ->
  resume P h r s
    = startStream_catch P (failure r) (res_state (set_phase h Finished s)).
Proof.
  intros Hc Hf.
  unfold resume. unfold bind at 1. unfold gets at 1. cbn beta iota.
  rewrite Hc. unfold in_try, try_catch, throw, bind.
  unfold set_phase, modify.
  destruct r as [data|e]; cbn -[startStream_catch] in Hf |- *.
  - destruct Hf as [-> Herr]. rewrite Herr. cbn -[startStream_catch].
    by destruct (startStream_catch P _ _) as [v s' eff].
  - destruct Hf as [-> | [-> | [-> | ->]]]; cbn -[startStream_catch];
      by destruct (startStream_catch P _ _) as [v s' eff].
Qed.

Lemma resume_fails P h c r s :
  conns s !! h = Some c -> fails (c_phase c) r ->
  let s1 := res_state (set_phase h Finished s) in
  let res := resume P h r s in
  res_val res = Val tt /\
  res_state res = res_state (stopStream P s1) /\
  res_eff res =
    EffLog LogError ("Failed to start stream: " +:+ err_display (failure r))
    :: start_failed (failure r) :: res_eff (stopStream P s1).
Proof.
  intros Hc Hf. cbn zeta. rewrite (resume_fails_eq P h c r s Hc Hf).
  apply startStream_catch_spec.
Qed.

Lemma set_phase_view h p s :
  webrtcRef (res_state (set_phase h p s)) = webrtcRef s /\
  pending (res_state (set_phase h p s)) = pending s /\
  conns (res_state (set_phase h p s))
    = alter (fun c => mkConn (c_session c) (c_pcId c) p) h (conns s).
Proof. unfold set_phase, modify, pending. by destruct_state s. Qed.

Lemma stopStream_conns P s : conns (res_state (stopStream P s)) = conns s.
Proof.
  unfold stopStream. unfold_js. destruct_state s. cbn.
  destruct s_rt, s_si, s_dc as [d|], s_pc as [p|], s_vid as [[stream|]|]; cbn;
    oracles P; reflexivity.
Qed.

(** X4. When a negotiation fails, because a promise [startStream] awaits is
    rejected or because the answer to the offer carries an [error], the
    failure is caught: the handler returns normally, shows the toast
    "Failed to start stream: ..." with the message of the error, and tears
    the stream down, so that the context is released.  No candidate is
    posted, neither from the buffer nor by the handler, and the buffer keeps
    what it held. *)
Theorem failed_negotiation_tears_down (P : Platform) (h : nat) (c : Conn)
    (r : Settled) (s : State) :
  conns s !! h = Some c ->
  fails (c_phase c) r ->
  let res := resume P h r s in
  res_val res = Val tt /\
  In (start_failed (failure r)) (res_eff res) /\
  (forall site, posts site (res_eff res) = []) /\
  webrtcRef (res_state res) = mkWebRTC None None None 0 /\
  reconnectTimeoutRef (res_state res) = None /\
  statsIntervalRef (res_state res) = None /\
  conns (res_state res) !! h = Some (mkConn (c_session c) (c_pcId c) Finished) /\
  pending (res_state res) = pending s.
Proof.
  intros Hc Hf. cbn zeta.
  destruct (resume_fails P h c r s Hc Hf) as (Hv & Hs & He). cbn zeta in Hs, He.
  set (s1 := res_state (set_phase h Finished s)) in *.
  destruct (set_phase_view h Finished s) as (Hw1 & Hp1 & Hc1). fold s1 in Hw1, Hp1, Hc1.
  pose proof (stopStream_context P s1) as (Hw & Hr & Hi & _ & _ & Hpr & Har & _).
  rewrite Hs, He. split; [done|]. split; [right; by left|]. split.
  { intros site. change (posts site (?a :: ?b :: ?l)) with (posts site l).
    apply stopStream_posts. }
  repeat split; try done.
  - by rewrite stopStream_conns, Hc1, list_lookup_alter_eq, Hc.
  - rewrite <- Hp1. unfold pending. by rewrite Hpr, Har.
Qed.

Lemma failed_negotiation_tears_down_witness :
  let s := fst (run (gathering (calm 0) "s1" 0 ["c1"] [] ["c2"] [] []) mounted) in
  let res := resume (calm 1) 0 (Fulfilled [("error", JStr "Session not found")]) s in
  In (start_failed (Error "Session not found")) (res_eff res) /\
  posts FromBuffer (res_eff res) = [] /\
  pending (res_state res) = ["c1"; "c2"].
Proof.
  intros s res.
  assert (Hc : conns s !! 0%nat = Some (mkConn "s1" JUndefined AwaitOffer))
    by reflexivity.
  destruct (failed_negotiation_tears_down (calm 1) 0 _
              (Fulfilled [("error", JStr "Session not found")]) s Hc
              (conj eq_refl eq_refl))
    as (_ & Ht & Hp & _ & _ & _ & _ & Hb).
  split; [exact Ht|]. split; [apply Hp|]. exact (eq_trans Hb eq_refl).
Defined.

(** X5. An activation of [startStream] that has been superseded still runs
    its [catch] block on the current context.  Start a stream, start a
    second one before the first has finished negotiating, and let the
    promise the first one awaits be rejected: the data channel of the
    second stream is closed, and so is its peer connection unless closing
    the channel throws; the context is released, while the second
    activation is still waiting for its offer. *)
Theorem superseded_failure_closes_current (P1 P2 P3 : Platform)
    (first second : string) (e : Err) (s : State) :
  isBackendConnected s = true ->
  let h1 := length (conns s) in
  let h2 := S h1 in
  let s1 := res_state (startStream P1 first s) in
  let s2 := res_state (startStream P2 second s1) in
  let res := resume P3 h1 (Rejected e) s2 in
  webrtcRef s2 = mkWebRTC (Some h2) (Some h2) (Some second) 0 /\
  In (EffCloseDc h2) (res_eff res) /\
  (dcCloseThrows P3 h2 = None -> In (EffClosePc h2) (res_eff res)) /\
  webrtcRef (res_state res) = mkWebRTC None None None 0 /\
  conns (res_state res) !! h2 = Some (mkConn second JUndefined AwaitCreateOffer).
Proof.
  intros Hbc. cbn zeta.
  destruct (startStream_connected P1 first s Hbc)
    as (_ & _ & Hw1 & Hc1 & _). cbn zeta in Hw1, Hc1.
  set (s1 := res_state (startStream P1 first s)) in *.
  assert (Hbc1 : isBackendConnected s1 = true).
  { subst s1. clear Hw1 Hc1.
    unfold startStream, startStream_of, stopStream, createPeerConnection.
    unfold_js. destruct_state s. cbn in *. subst. cbn.
    destruct s_rt, s_si, s_dc as [d|], s_pc as [p|], s_vid as [[stream|]|]; cbn;
      oracles P1; reflexivity. }
  destruct (startStream_connected P2 second s1 Hbc1)
    as (_ & _ & Hw2 & Hc2 & _). cbn zeta in Hw2, Hc2.
  set (s2 := res_state (startStream P2 second s1)) in *.
  rewrite Hc1, length_app in Hw2. cbn in Hw2.
  replace (length (conns s) + 1)%nat with (S (length (conns s))) in Hw2 by lia.
  assert (Hh1 : conns s2 !! length (conns s)
                = Some (mkConn first JUndefined AwaitCreateOffer)).
  { rewrite Hc2, Hc1. rewrite lookup_app_l by (rewrite length_app; cbn; lia).
    by rewrite lookup_app_r, Nat.sub_diag by lia. }
  assert (Hh2 : conns s2 !! S (length (conns s))
                = Some (mkConn second JUndefined AwaitCreateOffer)).
  { rewrite Hc2, Hc1. rewrite lookup_app_r by (rewrite length_app; cbn; lia).
    rewrite length_app. cbn.
    by replace (S (length (conns s)) - (length (conns s) + 1))%nat with 0%nat by lia. }
  destruct (resume_fails P3 _ _ (Rejected e) s2 Hh1 (or_introl eq_refl))
    as (_ & Hs & He). cbn zeta in Hs, He.
  destruct (set_phase_view (length (conns s)) Finished s2) as (Hw & _ & Hc).
  set (s3 := res_state (set_phase (length (conns s)) Finished s2)) in *.
  pose proof (stopStream_context P3 s3) as (Hw3 & _).
  destruct (stopStream_closes P3 s3) as [Hd Hp].
  split; [exact Hw2|]. split.
  { rewrite He. right. right. apply Hd. by rewrite Hw, Hw2. }
  split.
  { intros Hquiet. rewrite He. right. right.
    apply Hp; [by rewrite Hw, Hw2|].
    intros d Hdc. rewrite Hw, Hw2 in Hdc. cbn in Hdc. by simplify_eq. }
  split; [by rewrite Hs|].
  rewrite Hs, stopStream_conns, Hc, list_lookup_alter_ne by lia. exact Hh2.
Qed.

Lemma superseded_failure_closes_current_witness :
  let s1 := res_state (startStream (calm 0) "s1" mounted) in
  let s2 := res_state (startStream (calm 1) "s2" s1) in
  In (EffCloseDc 1)
     (res_eff (resume (calm 2) 0 (Rejected (Error "closed")) s2)) /\
  In (EffClosePc 1)
     (res_eff (resume (calm 2) 0 (Rejected (Error "closed")) s2)).
Proof.
  destruct (superseded_failure_closes_current (calm 0) (calm 1) (calm 2)
              "s1" "s2" (Error "closed") mounted eq_refl)
    as (_ & Hd & Hp & _).
  split; [exact Hd | exact (Hp eq_refl)].
Defined.

(** ** Changes of the connection state *)

(** X6. Of the connection states the peer connection reports, only [failed]
    has a consequence: the stream is torn down, leaving the state
    [stopStream] leaves.  Every other state, [disconnected] included, is
    only logged and announced: the state of the page stays as it is, so
    nothing is closed and no reconnection is scheduled. *)
Theorem connection_state_only_failed_acts (P : Platform)
    (state : ConnectionState) (s : State) :
  let r := pc_onconnectionstatechange P state s in
  res_val r = Val tt /\
  (state = CsFailed -> res_state r = res_state (stopStream P s) /\
                        webrtcRef (res_state r) = mkWebRTC None None None 0) /\
  (state <> CsFailed ->
     res_state r = s /\
     forall e, In e (res_eff r) ->
               (exists ty msg, e = EffLog ty msg) \/ (exists k msg id, e = EffToast k msg id)).
Proof.
  cbn zeta. pose proof (stopStream_returns P s) as Hv.
  pose proof (stopStream_context P s) as (Hw & _).
  unfold pc_onconnectionstatechange, bind, addDebugLog, toast, emit, skip, ret.
  destruct state; cbn -[stopStream];
    try (split; [done|]; split; [done|]; intros _; split; [done|];
         intros e [<-|[<-|[]]] || intros e [<-|[]]; eauto 6).
  destruct (stopStream P s) as [v s' eff]. cbn in *. subst.
  split; [done|]. split; [done|]. by intros [].
Qed.

Lemma connection_state_only_failed_acts_witness :
  res_state (pc_onconnectionstatechange (calm 0) CsDisconnected streaming) = streaming.
Proof.
  apply (proj2 (proj2 (connection_state_only_failed_acts (calm 0) CsDisconnected
                         streaming))).
  discriminate.
Defined.

(** ** Click indicators *)

Lemma find_newest (older : list Timer) (t : Timer) first :
  (forall t0, In t0 older -> (t_handle t0 < first)%nat) ->
  List.find (fun t0 => bool_decide (t_handle t0 = first)) (older ++ [t])
    = if bool_decide (t_handle t = first) then Some t else None.
Proof.
  intros Hold. by rewrite (find_older older [t] first first Hold (le_n _)).
Qed.

(** X7. A click on the video, with the control channel open, shows one new
    indicator and sets a timeout of 1000 ms for it.  Before that time the
    timeout does nothing; when it fires, the indicators carrying the id of
    that click are removed and the timer queue is as it was before the
    click, so that the list of indicators is the old one again whenever no
    older indicator carried the same id. *)
Theorem click_indicator_round_trip (P P' : Platform) (e : ClickEvent) (d : nat)
    (s : State) :
  timers_known s ->
  dc (webrtcRef s) = Some d ->
  readyState P d = Open ->
  let id := "indicator-" +:+ pretty (now P) in
  let s1 := fst (step P (EvVideoClick e) s) in
  let s2 := fst (step P' (EvTimer (nextTimer s)) s1) in
  clickIndicators s1
    = clickIndicators s ++ [mkIndicator id (click_offsetX e) (click_offsetY e) (now P)] /\
  (now P' < now P + 1000 -> s2 = s1) /\
  (now P + 1000 <= now P' ->
     clickIndicators s2 = filter (fun i => ci_id i <> id) (clickIndicators s) /\
     timers s2 = timers s /\
     ((forall i, In i (clickIndicators s) -> ci_id i <> id) ->
      clickIndicators s2 = clickIndicators s)).
Proof.
  unfold timers_known, step, handler, handleVideoClick, fire, run_callback,
    remove_indicator.
  unfold_js. destruct_state s. cbn -[List.find].
  intros Hknown -> Hopen.
  destruct (decide (readyState P d <> Open)) as [Hn|_]; [done|].
  cbn -[List.find]. rewrite (find_newest s_tm _ s_nt Hknown). cbn -[Z.leb].
  rewrite bool_decide_eq_true_2 by done. cbn [t_due t_repeat t_cb].
  split; [done|]. split.
  - intros Hearly%Z.leb_gt. by rewrite Hearly.
  - intros Hdue%Z.leb_le. rewrite Hdue. cbn.
    rewrite !filter_app, !filter_cons, !filter_nil.
    rewrite (filter_older s_tm s_nt s_nt Hknown (le_n _)).
    rewrite decide_False by (cbn; tauto). rewrite decide_False by (cbn; tauto).
    rewrite !app_nil_r. repeat split.
    intros Hfresh. clear -Hfresh. induction s_ci as [|i l IH]; [done|].
    rewrite filter_cons, decide_True by (apply Hfresh; by left).
    f_equal. apply IH. intros i' Hi'. apply Hfresh. by right.
Qed.

Lemma click_indicator_round_trip_witness :
  let s := fst (run [(calm 0, EvStartStream "s1")] mounted) in
  let s1 := fst (step (calm 500) (EvVideoClick (mkClick 640 360 320 180 "abc")) s) in
  clickIndicators s1 = [mkIndicator "indicator-500" 320 180 500] /\
  clickIndicators (fst (step (calm 1500) (EvTimer 1%nat) s1)) = [].
Proof.
  intros s s1.
  assert (Hk : timers_known s) by (intros t []).
  destruct (click_indicator_round_trip (calm 500) (calm 1500)
              (mkClick 640 360 320 180 "abc") 0%nat s Hk eq_refl eq_refl)
    as (H1 & _ & H2).
  split; [exact H1|].
  assert (Hdue : now (calm 500) + 1000 <= now (calm 1500)) by (cbn; lia).
  exact (proj1 (H2 Hdue)).
Defined.

(** ** Teardown and the reconnect timeout *)

Lemma find_handle_none (ts : list Timer) h :
  (forall t, In t ts -> t_handle t <> h) ->
  List.find (fun t => bool_decide (t_handle t = h)) ts = None.
Proof.
  intros Hne. induction ts as [|t ts IH]; [done|]. cbn.
  rewrite bool_decide_eq_false_2 by (apply Hne; by left).
  apply IH. intros t' Ht'. apply Hne. by right.
Qed.

(** X8. A stream that is stopped while a reconnect is pending does not come
    back: when the data channel closes below the cap and [stopStream] is
    called before the timeout has fired, the timeout is cancelled, and its
    handle, should the runtime ever look at it again, starts nothing. *)
Theorem teardown_cancels_pending_retry (P P1 P2 : Platform) (sessionId : string)
    (s : State) :
  timers_known s ->
  reconnectAttempts (webrtcRef s) < 3 ->
  let s1 := res_state (dc_onclose P sessionId s) in
  let s2 := res_state (stopStream P1 s1) in
  reconnect_pending s1 (nextTimer s) /\
  ~ reconnect_pending s2 (nextTimer s) /\
  step P2 (EvTimer (nextTimer s)) s2 = (s2, []).
Proof.
  intros Hknown Hlt. cbn zeta.
  destruct (dc_onclose_below_cap P sessionId s Hlt) as (Ht & Hr & _).
  cbn zeta in Ht, Hr. set (s1 := res_state (dc_onclose P sessionId s)) in *.
  pose proof (stopStream_context P1 s1) as (_ & _ & _ & _ & _ & _ & _ & Hleft).
  cbn zeta in Hleft. set (s2 := res_state (stopStream P1 s1)) in *.
  assert (Hnone : forall t, In t (timers s2) -> t_handle t <> nextTimer s).
  { intros t Hin. destruct (Hleft t Hin) as (_ & Hne & _).
    rewrite Hr in Hne. congruence. }
  split; [|split].
  - eexists. split; [rewrite Ht; apply in_or_app; right; by left|].
    split; [reflexivity|]. by eexists.
  - intros (t & Hin & Hh & _). by apply (Hnone t Hin).
  - unfold step, handler, fire, bind, gets.
    assert (Hfind : List.find (fun t => bool_decide (t_handle t = nextTimer s))
                      (timers s2) = None).
    { by apply find_handle_none. }
    by rewrite Hfind.
Qed.

Lemma teardown_cancels_pending_retry_witness :
  let s := fst (run [(calm 0, EvStartStream "s1")] mounted) in
  let s2 := res_state (stopStream (calm 2) (res_state (dc_onclose (calm 1) "s1" s))) in
  step (calm 3) (EvTimer 1%nat) s2 = (s2, []).
Proof.
  intros s s2.
  assert (Hk : timers_known s) by (intros t []).
  assert (Hlt : reconnectAttempts (webrtcRef s) < 3) by (vm_compute; reflexivity).
  exact (proj2 (proj2 (teardown_cancels_pending_retry (calm 1) (calm 2) (calm 3)
                         "s1" s Hk Hlt))).
Defined.

Lemma dc_onclose_frame P sessionId s :
  isBackendConnected (res_state (dc_onclose P sessionId s)) = isBackendConnected s /\
  conns (res_state (dc_onclose P sessionId s)) = conns s.
Proof.
  unfold dc_onclose. unfold_js. destruct_state s. cbn.
  by destruct (Z.ltb s_att 3).
Qed.

Lemma handler_dc_close P h c s :
  conns s !! h = Some c ->
  handler P (EvDcClose h) s = dc_onclose P (c_session c) s.
Proof.
  intros Hc. cbn [handler]. unfold bind, gets. rewrite Hc.
  by destruct (dc_onclose P (c_session c) s) as [v s' e].
Qed.

(** The newest timer, a timeout that is due, fires: it leaves the queue and
    its callback runs. *)
Lemma fire_due P h t older s :
  timers s = older ++ [t] ->
  (forall t0, In t0 older -> (t_handle t0 < h)%nat) ->
  t_handle t = h -> t_repeat t = false -> t_due t <= now P ->
  fire P h s = run_callback P (t_cb t) (set_timers older s).
Proof.
  intros Ht Hold Hh Hrep Hdue. unfold fire, bind, gets. rewrite Ht.
  rewrite (find_newest older t h Hold), bool_decide_eq_true_2 by done.
  apply Z.leb_le in Hdue. rewrite Hdue, Hrep.
  unfold clearTimeout, modify. rewrite Ht.
  rewrite filter_app, (filter_older older h h Hold (le_n _)), filter_cons.
  rewrite decide_False by tauto. rewrite filter_nil, app_nil_r.
  by destruct (run_callback P (t_cb t) _) as [v s' e].
Qed.

(** X9. The close handler of a data channel does not ask why the channel
    closed, nor whether the channel is the current one.  If the close event
    of a channel arrives after [stopStream] has released the context, a
    reconnect is scheduled with no delay.  When it fires, the attempt is
    counted on the released context and announced as attempt 1 of 3, and
    it is refused with "Backend not connected" whether the backend is
    connected or not: no connection is made and no timer is left. *)
Theorem close_after_teardown_retries_in_vain (P P1 P2 : Platform) (h : nat)
    (c : Conn) (s : State) :
  timers_known s ->
  conns s !! h = Some c ->
  now P1 <= now P2 ->
  let s1 := res_state (stopStream P s) in
  let s2 := fst (step P1 (EvDcClose h) s1) in
  let r3 := step P2 (EvTimer (nextTimer s1)) s2 in
  timers s2 = timers s1
    ++ [mkTimer (nextTimer s1) (now P1) 0 false (CbReconnect (c_session c))] /\
  snd r3 = [EffToast ToastInfo "Attempting to reconnect... (1/3)" JUndefined;
            EffToast ToastError "Backend not connected" JUndefined] /\
  webrtcRef (fst r3) = mkWebRTC None None None 1 /\
  conns (fst r3) = conns s /\
  timers (fst r3) = timers s1 /\
  isBackendConnected (fst r3) = isBackendConnected s.
Proof.
  intros Hknown Hc Htime. cbn zeta.
  destruct (stopStream_frame P s) as (Hbc1 & Hn1 & Hc1).
  pose proof (stopStream_context P s) as (Hw1 & _).
  pose proof (Orderly_stopStream P s Hknown) as Hknown1.
  set (s1 := res_state (stopStream P s)) in *.
  assert (Hlt : reconnectAttempts (webrtcRef s1) < 3) by (rewrite Hw1; cbn; lia).
  rewrite <- Hc1 in Hc.
  unfold step. rewrite (handler_dc_close P1 h c s1 Hc).
  destruct (dc_onclose_below_cap P1 (c_session c) s1 Hlt) as (Ht2 & _ & Hw2).
  destruct (dc_onclose_frame P1 (c_session c) s1) as (Hbc2 & Hc2).
  cbn zeta in Ht2, Hw2. cbn [fst snd].
  set (s2 := res_state (dc_onclose P1 (c_session c) s1)) in *.
  rewrite Hw1 in Ht2. cbn [reconnectAttempts] in Ht2.
  replace (2000 * 0) with 0 in Ht2 by lia. rewrite Z.add_0_r in Ht2.
  split; [exact Ht2|].
  cbn [handler].
  rewrite (fire_due P2 (nextTimer s1) _ (timers s1) s2 Ht2 Hknown1 eq_refl eq_refl
             Htime).
  cbn [t_cb run_callback]. rewrite reconnect_spec. cbn [res_state res_eff].
  assert (Hw : webrtcRef (set_timers (timers s1) s2) = mkWebRTC None None None 0)
    by (rewrite <- Hw1, <- Hw2; by destruct_state s2).
  rewrite Hw. cbn [reconnectAttempts].
  destruct (with_attempts_view (0 + 1) (set_timers (timers s1) s2))
    as (Hw3 & Ht3 & Hc3 & _ & Hb3).
  rewrite Hw3, Ht3, Hc3, Hb3, Hw. cbn.
  split; [reflexivity|]. split; [reflexivity|].
  rewrite <- Hc1, <- Hc2, <- Hbc1, <- Hbc2. by destruct_state s2.
Qed.

Lemma close_after_teardown_retries_in_vain_witness :
  let s1 := res_state (stopStream (calm 10) streaming) in
  let s2 := fst (step (calm 11) (EvDcClose 0) s1) in
  snd (step (calm 11) (EvTimer (nextTimer s1)) s2)
    = [EffToast ToastInfo "Attempting to reconnect... (1/3)" JUndefined;
       EffToast ToastError "Backend not connected" JUndefined].
Proof.
  intros s1 s2.
  assert (Hk : timers_known streaming).
  { apply timers_known_run. intros t Ht. cbn in Ht. tauto. }
  exact (proj1 (proj2 (close_after_teardown_retries_in_vain (calm 10) (calm 11)
                         (calm 11) 0 (mkConn "s1" JUndefined AwaitCreateOffer)
                         streaming Hk eq_refl (Z.le_refl _)))).
Defined.

(** ** Stats samples *)

Lemma last_inbound_video_none stats :
  (forall r, In r stats -> ~ inbound_video r) -> last_inbound_video stats = None.
Proof.
  intros Hno. unfold last_inbound_video.
  replace (filter inbound_video stats) with (@nil Report); [done|].
  induction stats as [|r stats IH]; [done|].
  rewrite filter_cons, decide_False by (apply Hno; by left).
  apply IH. intros r' Hr'. apply Hno. by right.
Qed.

(** X10. The stats interval asks the peer connection for statistics only
    while a stream is attached to the video element.  A sample that holds
    no inbound video report publishes nothing: the quality shown stays as
    it was; and a report without [framesPerSecond] is published with 0
    frames per second. *)
Theorem stats_sample_edges (h : nat) (stats : list Report) (r : Report) (s : State) :
  ((forall stream, videoRef s <> Some (Some stream)) ->
     stats_tick h s = mkRes (Val tt) s []) /\
  ((exists stream, videoRef s = Some (Some stream)) ->
     stats_tick h s = mkRes (Val tt) s [EffGetStats h]) /\
  ((forall r', In r' stats -> ~ inbound_video r') ->
     stats_forEach stats s = mkRes (Val tt) s []) /\
  (last_inbound_video stats = Some r -> framesPerSecond r = None ->
     fps (streamQuality (res_state (stats_forEach stats s))) = 0).
Proof.
  repeat split.
  - intros Hno. unfold stats_tick, bind, gets, skip, ret.
    destruct (videoRef s) as [[stream|]|] eqn:Hv; [|done|done].
    by destruct (Hno stream).
  - intros [stream Hv]. unfold stats_tick, bind, gets, emit. by rewrite Hv.
  - intros Hno. by rewrite stats_forEach_spec, (last_inbound_video_none stats Hno).
  - intros Hl Hf. rewrite stats_forEach_spec, Hl. cbn.
    rewrite streamQuality_set. cbn. unfold fps_of. by rewrite Hf.
Qed.

Lemma stats_sample_edges_witness :
  stats_forEach [mkReport "inbound-rtp" "audio" None 900;
                 mkReport "outbound-rtp" "video" (Some 30) 100] streaming
    = mkRes (Val tt) streaming [].
Proof.
  apply (proj1 (proj2 (proj2 (stats_sample_edges 0
           [mkReport "inbound-rtp" "audio" None 900;
            mkReport "outbound-rtp" "video" (Some 30) 100]
           (mkReport "" "" None 0) streaming)))).
  intros r' [<-|[<-|[]]]; intros [H1 H2]; discriminate.
Defined.

(** ** The debug log *)

Lemma length_slice_last {A} n (l : list A) : length (slice_last n l) = min (length l) n.
Proof. unfold slice_last. rewrite length_drop. lia. Qed.

Lemma slice_last_app {A} n (l k : list A) :
  slice_last n (slice_last n l ++ k) = slice_last n (l ++ k).
Proof.
  unfold slice_last. rewrite !length_app, length_drop.
  destruct (decide (length l <= n)%nat) as [Hle|Hgt].
  - replace (length l - n)%nat with 0%nat by lia. cbn. by rewrite Nat.sub_0_r.
  - replace (length l - (length l - n) + length k - n)%nat with (length k) by lia.
    replace (length l + length k - n)%nat
      with ((length l - n) + length k)%nat by lia.
    rewrite <- drop_drop. f_equal.
    rewrite drop_app_le by lia. done.
Qed.

Lemma setDebugLogs_add_slice prev entry :
  setDebugLogs_add prev entry = slice_last 50 (prev ++ [entry]).
Proof.
  unfold setDebugLogs_add, slice_last. rewrite length_app. cbn.
  replace (length prev + 1 - 50)%nat with (length prev - 49)%nat by lia.
  rewrite drop_app_le by lia. done.
Qed.

(** X11. The debug log keeps the newest 50 lines.  Whatever it held before,
    after any number of [addDebugLog] calls (at least one) it holds exactly
    the last 50 of the lines it held and the lines added, in order; so it
    never has more than 50 entries and its last entry is the line added
    last. *)
Theorem debug_log_keeps_newest_50 (prev entries : list DebugLog) :
  entries <> [] ->
  let logs := foldl setDebugLogs_add prev entries in
  logs = slice_last 50 (prev ++ entries) /\
  (length logs <= 50)%nat /\
  last logs = last entries.
Proof.
  intros Hne. cbn zeta.
  assert (Heq : foldl setDebugLogs_add prev entries = slice_last 50 (prev ++ entries)).
  { revert prev. induction entries as [|e es IH]; intros prev; [done|].
    cbn [foldl]. destruct es as [|e' es'].
    - cbn. apply setDebugLogs_add_slice.
    - rewrite IH by done. rewrite setDebugLogs_add_slice, slice_last_app.
      by rewrite <- app_assoc. }
  rewrite Heq. split; [done|]. split.
  - rewrite length_slice_last. lia.
  - unfold slice_last. destruct entries as [|e es] using rev_ind; [done|].
    rewrite app_assoc, last_snoc.
    rewrite length_app. cbn.
    rewrite drop_app_le by lia. by rewrite last_snoc.
Qed.

Lemma debug_log_keeps_newest_50_witness :
  foldl setDebugLogs_add (replicate 50 (mkDebugLog Log "old" 0))
    [mkDebugLog LogWarn "Data channel closed" 7; mkDebugLog Log "Stopping stream" 8]
  = replicate 48 (mkDebugLog Log "old" 0)
    ++ [mkDebugLog LogWarn "Data channel closed" 7; mkDebugLog Log "Stopping stream" 8].
Proof.
  rewrite (proj1 (debug_log_keeps_newest_50 (replicate 50 (mkDebugLog Log "old" 0))
                    [mkDebugLog LogWarn "Data channel closed" 7;
                     mkDebugLog Log "Stopping stream" 8] ltac:(discriminate))).
  reflexivity.
Defined.

(** ** The aliases page *)

Lemma filter_filter_same {A} (P : A -> Prop) `{forall x, Decision (P x)} (l : list A) :
  filter P (filter P l) = filter P l.
Proof.
  induction l as [|x l IH]; [done|]. rewrite filter_cons.
  destruct (decide (P x)) as [Hx|Hx]; [|done].
  by rewrite filter_cons, decide_True, IH.
Qed.

(** X12. Deleting an alias.  When the server answers ok, exactly the aliases
    with the deleted id leave the list, the others stay in their order, and
    nothing else on the page changes; deleting the same id again changes
    nothing more.  When the server refuses, the page stays as it is and one
    error toast is shown, with the error text of the response when it has
    one and "Failed to delete alias" when it has none. *)
Theorem delete_alias_outcomes (aliasId : Z) (r : Aliases.Fetched) (p : Aliases.Page) :
  let res := Aliases.handleDeleteAlias aliasId r p in
  (forall body, r = Aliases.FetchResponse true body ->
     Aliases.aliases (fst res)
       = filter (fun a => Aliases.id a <> aliasId) (Aliases.aliases p) /\
     (forall a, In a (Aliases.aliases (fst res)) <->
                In a (Aliases.aliases p) /\ Aliases.id a <> aliasId) /\
     Aliases.set_aliases (Aliases.aliases p) (fst res) = p /\
     fst (Aliases.handleDeleteAlias aliasId r (fst res)) = fst res) /\
  (forall err text, r = Aliases.FetchResponse false (ParseOk err) ->
     field err "error" = JStr text -> text <> "" ->
     res = (p, [EffToast ToastError text JUndefined])) /\
  (forall err, r = Aliases.FetchResponse false (ParseOk err) ->
     truthy (field err "error") = false ->
     res = (p, [EffToast ToastError "Failed to delete alias" JUndefined])).
Proof.
  cbn zeta. split; [|split].
  - intros body ->. cbn. split; [done|]. split; [|split].
    + intros a. rewrite <- !list_elem_of_In, list_elem_of_filter. tauto.
    + by destruct p.
    + unfold Aliases.set_aliases. cbn. by rewrite filter_filter_same.
  - intros err text -> Hf Hne. unfold Aliases.handleDeleteAlias. cbn.
    unfold Aliases.or_text, Aliases.message_or. rewrite Hf. cbn.
    apply String.eqb_neq in Hne. rewrite Hne. cbn. by rewrite Hne.
  - intros err -> Hf. unfold Aliases.handleDeleteAlias. cbn.
    unfold Aliases.or_text. by rewrite Hf.
Qed.

Lemma delete_alias_outcomes_witness :
  let a1 := Aliases.mkAlias 1 "a+x@mail.com" "pw1" None None None in
  let a2 := Aliases.mkAlias 2 "b+y@mail.com" "pw2" (Some "shop") None None in
  let p := Aliases.mkPage [a1; a2; a1] false empty false (Aliases.mkNewAlias "" "" "")
             false false None None in
  Aliases.aliases
    (fst (Aliases.handleDeleteAlias 1 (Aliases.FetchResponse true (ParseOk [])) p))
  = [a2].
Proof.
  intros a1 a2 p.
  rewrite (proj1 (proj1 (delete_alias_outcomes 1
             (Aliases.FetchResponse true (ParseOk [])) p) _ eq_refl)).
  reflexivity.
Defined.

(** X13. Updating an alias.  Without a current alias the handler does
    nothing.  With one, and a response that is ok and parses, every alias
    carrying the id of the current alias is replaced by it and every other
    alias is kept, so the list keeps its length and its ids in order; the
    dialog is closed and the current alias cleared.  A response that is ok
    but whose body does not parse counts as a failure: like any failure it
    leaves the page as it is, dialog open, and shows one error toast. *)
Theorem update_alias_outcomes (r : Aliases.Fetched) (p : Aliases.Page) :
  let res := Aliases.handleUpdateAlias r p in
  (Aliases.currentAlias p = None -> res = (p, [])) /\
  (forall current data,
     Aliases.currentAlias p = Some current ->
     r = Aliases.FetchResponse true (ParseOk data) ->
     map Aliases.id (Aliases.aliases (fst res)) = map Aliases.id (Aliases.aliases p) /\
     (forall i a, Aliases.aliases p !! i = Some a ->
        Aliases.aliases (fst res) !! i
          = Some (if decide (Aliases.id a = Aliases.id current) then current else a)) /\
     Aliases.isUpdateOpen (fst res) = false /\
     Aliases.currentAlias (fst res) = None) /\
  (forall current e,
     Aliases.currentAlias p = Some current ->
     Aliases.updateAlias r = Thrown e ->
     res = (p, [EffToast ToastError (Aliases.message_or e "Failed to update alias")
                  JUndefined])) /\
  (forall e, r = Aliases.FetchResponse true (ParseThrows e) ->
     Aliases.updateAlias r = Thrown e).
Proof.
  cbn zeta. unfold Aliases.handleUpdateAlias.
  split; [by intros ->|]. split; [|split].
  - intros current data Hc ->. rewrite Hc. cbn -[lookup].
    split; [|split; [|done]].
    + rewrite map_map. apply map_ext_in. intros a _.
      by destruct (decide (Aliases.id a = Aliases.id current)) as [->|].
    + intros i a Hi. by rewrite list_lookup_fmap, Hi.
  - by intros current e -> ->.
  - by intros e ->.
Qed.

Lemma update_alias_outcomes_witness :
  let a1 := Aliases.mkAlias 1 "a+x@mail.com" "pw1" None None None in
  let a2 := Aliases.mkAlias 2 "b+y@mail.com" "pw2" (Some "shop") None None in
  let a2' := Aliases.mkAlias 2 "b+y@mail.com" "pw2" (Some "bank") (Some "Work") None in
  let p := Aliases.mkPage [a1; a2] false empty false (Aliases.mkNewAlias "" "" "")
             false true (Some a2') None in
  Aliases.handleUpdateAlias
     (Aliases.FetchResponse true (ParseThrows (Error "Unexpected end of JSON input"))) p
  = (p, [EffToast ToastError "Unexpected end of JSON input" JUndefined]).
Proof.
  intros a1 a2 a2' p.
  apply (proj1 (proj2 (proj2 (update_alias_outcomes
           (Aliases.FetchResponse true (ParseThrows (Error "Unexpected end of JSON input")))
           p))) a2' _ eq_refl eq_refl).
Defined.

(** X14. Showing and hiding a password.  A toggle flips the visibility of
    the password of that one alias and of no other; two toggles of the same
    alias leave every password as visible as it was. *)
Theorem toggle_password_visibility (i : Z) (p : Aliases.Page) :
  Aliases.shown (Aliases.togglePasswordVisibility i p) i = negb (Aliases.shown p i) /\
  (forall j, j <> i ->
     Aliases.shown (Aliases.togglePasswordVisibility i p) j = Aliases.shown p j) /\
  (forall j,
     Aliases.shown
       (Aliases.togglePasswordVisibility i (Aliases.togglePasswordVisibility i p)) j
     = Aliases.shown p j) /\
  Aliases.aliases (Aliases.togglePasswordVisibility i p) = Aliases.aliases p.
Proof.
  unfold Aliases.shown, Aliases.togglePasswordVisibility. cbn.
  split; [by rewrite lookup_insert_eq|].
  split; [intros j Hj; by rewrite lookup_insert_ne|].
  split; [|done]. intros j. destruct (decide (j = i)) as [->|Hj].
  - rewrite !lookup_insert_eq. cbn. by rewrite negb_involutive.
  - by rewrite !lookup_insert_ne.
Qed.

Lemma toggle_password_visibility_witness :
  let p := Aliases.mkPage [] false empty false (Aliases.mkNewAlias "" "" "")
             false false None None in
  Aliases.shown (Aliases.togglePasswordVisibility 7 p) 3 = false.
Proof.
  intros p.
  rewrite (proj1 (proj2 (toggle_password_visibility 7 p)) 3 ltac:(lia)).
  reflexivity.
Defined.

(** ** The session list *)

Lemma fetchSessions_frame r v :
  Sessions.isLoading (fst (Sessions.fetchSessions r v)) = false /\
  Sessions.newUrl (fst (Sessions.fetchSessions r v)) = Sessions.newUrl v /\
  Sessions.selectedSession (fst (Sessions.fetchSessions r v))
    = Sessions.selectedSession v.
Proof.
  unfold Sessions.fetchSessions.
  by destruct r as [e|[e|items|fields|x]]; cbn;
    repeat match goal with
    | |- context [Sessions.property ?f ?k] => destruct (Sessions.property f k) as [[]|]
    end.
Qed.

(** X15. Refreshing the session list.  The list may arrive as an array or
    wrapped in an object under [sessions]: both leave the same state and
    the same log.  An empty array, a boolean, a number, a string, and an
    object without an array under [sessions] empty the list, with a warning
    in the log.  A rejected request, and a null or undefined payload, leave
    the list as it was and show "Failed to fetch sessions".
    In every case the loading flag is off afterwards and the URL field and
    the selection are untouched. *)
Theorem fetchSessions_payload_shapes (r : Sessions.Got Sessions.Payload)
    (v : Sessions.View) :
  let res := Sessions.fetchSessions r v in
  (Sessions.isLoading (fst res) = false /\
   Sessions.newUrl (fst res) = Sessions.newUrl v /\
   Sessions.selectedSession (fst res) = Sessions.selectedSession v) /\
  (forall items fields,
     Sessions.property fields "sessions" = Some (Sessions.PayloadArray items) ->
     Sessions.fetchSessions (Sessions.GotData (Sessions.PayloadObject fields)) v
       = Sessions.fetchSessions (Sessions.GotData (Sessions.PayloadArray items)) v /\
     Sessions.sessions
       (fst (Sessions.fetchSessions (Sessions.GotData (Sessions.PayloadArray items)) v))
       = items) /\
  (forall payload,
     r = Sessions.GotData payload ->
     payload = Sessions.PayloadArray [] \/
     (exists x, payload = Sessions.PayloadOther x) \/
     (exists fields,
        payload = Sessions.PayloadObject fields /\
        forall items,
          Sessions.property fields "sessions" <> Some (Sessions.PayloadArray items)) ->
     Sessions.sessions (fst res) = [] /\
     In (Sessions.NoteLog LogWarn "No sessions found in API response") (snd res)) /\
  (forall e,
     r = Sessions.GotRejected e \/ r = Sessions.GotData (Sessions.PayloadNull e) ->
     Sessions.sessions (fst res) = Sessions.sessions v /\
     In (Sessions.NoteToast (Some ToastError) "Failed to fetch sessions") (snd res)).
Proof.
  cbn zeta. split; [apply fetchSessions_frame|]. split; [|split].
  - intros items fields Hp. unfold Sessions.fetchSessions. cbn. by rewrite Hp.
  - intros payload -> Hshape.
    assert (Hs : Sessions.sessionsArray payload = Val []).
    { destruct Hshape as [-> | [[x ->] | (fields & -> & Hno)]]; [done..|].
      cbn. destruct (Sessions.property fields "sessions") as [[]|] eqn:Hp;
        try done. by destruct (Hno items). }
    unfold Sessions.fetchSessions. rewrite Hs.
    split; [done|]. right. by left.
  - intros e [-> | ->]; (split; [done|]); right; right; by left.
Qed.

Lemma fetchSessions_payload_shapes_witness :
  let v := Sessions.mkView [] "" None true in
  let s1 := Sessions.mkSession "s1" "https://example.com" "Example" "active"
              "t0" "t1" None true in
  Sessions.sessions
    (fst (Sessions.fetchSessions
            (Sessions.GotData
               (Sessions.PayloadObject
                  [("count", Sessions.PayloadOther (Sessions.PrimNum 1));
                   ("sessions", Sessions.PayloadArray [s1])])) v))
  = [s1].
Proof.
  intros v s1.
  destruct (proj1 (proj2 (fetchSessions_payload_shapes
              (Sessions.GotData (Sessions.PayloadArray [s1])) v))
              [s1] [("count", Sessions.PayloadOther (Sessions.PrimNum 1));
                    ("sessions", Sessions.PayloadArray [s1])] eq_refl) as [H1 H2].
  rewrite H1. exact H2.
Defined.

(** X16. Creating a session.  With a blank URL, or with the backend not
    connected, nothing happens but an error toast: the URL field keeps its
    text.  Otherwise the URL field is cleared at once.  If the server
    creates the session, the new id is selected and the list is the
    refreshed one, or, when the refresh fails, the old list with the
    placeholder at its end.  If the server refuses, the list and the
    selection stay as they were but the URL typed is gone.  The loading
    flag is off at the end in every case that started. *)
Theorem createSession_outcomes (trim : string -> string) (connected : bool)
    (createdISO activityISO : string) (created : Sessions.Got string)
    (refreshed : Sessions.Got Sessions.Payload) (v : Sessions.View) :
  let res := Sessions.createSession trim connected createdISO activityISO created
               refreshed v in
  (trim (Sessions.newUrl v) = "" \/ connected = false ->
     res = (v, [Sessions.NoteToast (Some ToastError)
                  "Please enter a URL and ensure backend is connected"])) /\
  (trim (Sessions.newUrl v) <> "" -> connected = true ->
     Sessions.newUrl (fst res) = "" /\ Sessions.isLoading (fst res) = false /\
     (forall newSessionId, created = Sessions.GotData newSessionId ->
        Sessions.selectedSession (fst res) = Some newSessionId /\
        (forall items,
           refreshed = Sessions.GotData (Sessions.PayloadArray items) ->
           Sessions.sessions (fst res) = items) /\
        (forall e, refreshed = Sessions.GotRejected e ->
           Sessions.sessions (fst res)
             = Sessions.sessions v
               ++ [Sessions.placeholderSession newSessionId (Sessions.newUrl v)
                     createdISO activityISO])) /\
     (forall e, created = Sessions.GotRejected e ->
        Sessions.sessions (fst res) = Sessions.sessions v /\
        Sessions.selectedSession (fst res) = Sessions.selectedSession v /\
        In (Sessions.NoteToast (Some ToastError) "Failed to create session") (snd res))).
Proof.
  cbn zeta. unfold Sessions.createSession. split.
  - intros [Hb | ->].
    + rewrite Hb. done.
    + by rewrite orb_true_r.
  - intros Hb ->. apply String.eqb_neq in Hb. rewrite Hb. cbn [negb orb].
    destruct created as [e|newSessionId].
    + cbn. split; [done|]. split; [done|]. split; [intros; discriminate|].
      intros e' _. tauto.
    + destruct (Sessions.fetchSessions refreshed _) as [v3 notes] eqn:Hf.
      pose proof (fetchSessions_frame refreshed
        (Sessions.mkView
           (Sessions.sessions v
            ++ [Sessions.placeholderSession newSessionId (Sessions.newUrl v)
                     createdISO activityISO])
           "" (Some newSessionId) true)) as (_ & Hu & Hsel).
      cbn [Sessions.sessions Sessions.newUrl Sessions.selectedSession
             Sessions.isLoading] in Hf.
      rewrite Hf in Hu, Hsel. cbn in Hu, Hsel |- *.
      split; [done|]. split; [done|]. split; [|intros; discriminate].
      intros ? [= <-]. split; [done|]. split.
      * intros items ->. by inversion Hf.
      * intros e ->. by inversion Hf.
Qed.

Lemma createSession_outcomes_witness :
  let v := Sessions.mkView [] "https://example.com" None false in
  let res := Sessions.createSession (fun u => u) true "2025-01-01T00:00:00.000Z"
               "2025-01-01T00:00:00.001Z"
               (Sessions.GotRejected (Error "Network Error"))
               (Sessions.GotRejected (Error "Network Error")) v in
  Sessions.newUrl (fst res) = "" /\ Sessions.sessions (fst res) = [].
Proof.
  intros v res.
  destruct (proj2 (createSession_outcomes (fun u => u) true
                     "2025-01-01T00:00:00.000Z" "2025-01-01T00:00:00.001Z"
                     (Sessions.GotRejected (Error "Network Error"))
                     (Sessions.GotRejected (Error "Network Error")) v)
              ltac:(discriminate) eq_refl) as (Hu & _ & _ & Hr).
  split; [exact Hu|]. exact (proj1 (Hr _ eq_refl)).
Defined.

Lemma selected_spec (v : Sessions.View) (s : Sessions.Session) :
  Sessions.selected v = Some s ->
  In s (Sessions.sessions v) /\
  Sessions.selectedSession v = Some (Sessions.session_id s).
Proof.
  unfold Sessions.selected. intros H. apply find_some in H as [Hin Hb].
  split; [done|]. by apply bool_decide_eq_true in Hb.
Qed.

Lemma selected_none (v : Sessions.View) :
  Sessions.selectedSession v = None -> Sessions.selected v = None.
Proof.
  unfold Sessions.selected. intros ->. by induction (Sessions.sessions v).
Qed.

(** X17. Closing a session.  The handler compares the id it closes with
    the selection its render saw, and does so after the DELETE has been
    answered.  Once the server has deleted the session: if that render had
    it selected the selection is cleared, whatever is selected by then,
    and otherwise the selection is left alone.  So when the selection has
    not changed during the request, the closed session is never the one
    shown in the detail pane, even when the refresh that follows fails and
    the session is still in the list; but a session that was selected
    during the request stays selected, and with a failed refresh it stays
    listed and shown.  If the server refuses the deletion the view is left
    exactly as it was. *)
Theorem closeSession_selection (selectedAtRender : option string)
    (sessionId : string) (deleted : Sessions.Got unit)
    (refreshed : Sessions.Got Sessions.Payload) (v : Sessions.View) :
  let res := Sessions.closeSession selectedAtRender sessionId deleted refreshed v in
  (forall u, deleted = Sessions.GotData u ->
     Sessions.selectedSession (fst res)
       = (if decide (selectedAtRender = Some sessionId)
          then None else Sessions.selectedSession v) /\
     (selectedAtRender = Sessions.selectedSession v ->
      forall s, Sessions.selected (fst res) = Some s ->
        Sessions.session_id s <> sessionId /\ In s (Sessions.sessions (fst res))) /\
     (forall e, refreshed = Sessions.GotRejected e ->
        Sessions.sessions (fst res) = Sessions.sessions v /\
        (selectedAtRender <> Some sessionId ->
         Sessions.selected (fst res) = Sessions.selected v))) /\
  (forall e, deleted = Sessions.GotRejected e ->
     fst res = v /\
     In (Sessions.NoteToast (Some ToastError) "Failed to close session") (snd res)).
Proof.
  cbn zeta. split.
  - intros u ->. unfold Sessions.closeSession.
    set (v1 := if decide (selectedAtRender = Some sessionId)
               then _ else v).
    assert (Hsel : Sessions.selectedSession v1
                   = if decide (selectedAtRender = Some sessionId)
                     then None else Sessions.selectedSession v)
      by (subst v1; by destruct (decide _)).
    assert (Hlist : Sessions.sessions v1 = Sessions.sessions v)
      by (subst v1; by destruct (decide _)).
    pose proof (fetchSessions_frame refreshed v1) as (_ & _ & Hkeep).
    destruct (Sessions.fetchSessions refreshed v1) as [v2 notes] eqn:Hf.
    cbn [fst snd] in *. rewrite Hkeep, Hsel. split; [done|]. split.
    + intros Hsame s Hs. apply selected_spec in Hs as [Hin Hid].
      split; [|done]. intros <-. rewrite Hkeep, Hsel in Hid.
      destruct (decide _) as [|Hne]; [done|]. apply Hne. by rewrite Hsame.
    + intros e ->. assert (Hv2 : Sessions.sessions v2 = Sessions.sessions v)
        by (by inversion Hf; subst).
      split; [done|]. intros Hne. unfold Sessions.selected.
      rewrite Hv2, Hkeep, Hsel. by rewrite decide_False.
  - intros e ->. split; [done|]. right; right; by left.
Qed.

Lemma closeSession_selection_witness :
  let s1 := Sessions.mkSession "s1" "https://example.com" "Example" "active"
              "t0" "t1" None true in
  let v := Sessions.mkView [s1] "" (Some "s1") false in
  Sessions.selected
    (fst (Sessions.closeSession None "s1" (Sessions.GotData tt)
            (Sessions.GotRejected (Error "Network Error")) v)) = Some s1.
Proof.
  intros s1 v.
  destruct (proj1 (closeSession_selection None "s1" (Sessions.GotData tt)
                     (Sessions.GotRejected (Error "Network Error")) v)
              tt eq_refl) as (_ & _ & Hr).
  destruct (Hr _ eq_refl) as [_ Hshown].
  rewrite (Hshown ltac:(discriminate)). reflexivity.
Defined.

(** ** Alias normalisation *)

Lemma split_at_cons (s : string) : exists part parts, Normalize.split_at s = part :: parts.
Proof.
  induction s as [|c s (part & parts & IH)]; cbn; [by eauto|].
  destruct (decide _); [by eauto|]. rewrite IH. by eauto.
Qed.

Lemma split_at_whole (s : string) :
  Normalize.includes "@" s = false -> Normalize.split_at s = [s].
Proof.
  induction s as [|c s IH]; cbn; [done|].
  destruct (decide _); [done|]. intros H. by rewrite (IH H).
Qed.

Lemma split_at_app (l r : string) :
  Normalize.includes "@" l = false ->
  Normalize.split_at (l +:+ "@" +:+ r) = l :: Normalize.split_at r.
Proof.
  induction l as [|c l IH]; [done|]. intros H. cbn in H.
  change (Normalize.split_at (String c (l +:+ "@" +:+ r))
          = String c l :: Normalize.split_at r).
  cbn. destruct (decide (c = "@"%char)); [done|]. by rewrite (IH H).
Qed.

Lemma includes_app (l r : string) :
  Normalize.includes "@" (l +:+ "@" +:+ r) = true.
Proof.
  induction l as [|c l IH]; [done|].
  change (Normalize.includes "@" (String c (l +:+ "@" +:+ r)) = true).
  cbn. by destruct (decide _).
Qed.

Lemma string_app_assoc (a b c : string) : (a +:+ b) +:+ c = a +:+ b +:+ c.
Proof.
  induction a as [|x a IH]; [done|].
  change (String x ((a +:+ b) +:+ c) = String x (a +:+ b +:+ c)). by rewrite IH.
Qed.

(** X18. The alias built by [normalizeInputToAlias].  The result is always
    the lower-cased form of a text with an [@] in it.  For a full address
    [local@domain] and no tag it is [local+hash@domain], the hash being the
    random one unless the deterministic flag is set; whatever follows a
    second [@] in the input is dropped.  With no input at all and a stored
    user email that has no [@], the alias ends in [@undefined]. *)
Theorem normalizeInputToAlias_shapes (B : Normalize.Builtins) (random : string)
    (userEmail storedUserEmail : option string) (mail tag : string)
    (deterministicFlag : bool) :
  let out := Normalize.normalizeInputToAlias B random userEmail storedUserEmail
               mail tag deterministicFlag in
  let rawMail := Normalize.toLowerCase B (Normalize.trim B mail) in
  let rawTag := Normalize.toLowerCase B (Normalize.trim B tag) in
  (exists l d, out = Normalize.toLowerCase B (l +:+ "@" +:+ d)) /\
  (forall local domain,
     Normalize.includes "@" local = false ->
     Normalize.includes "@" domain = false ->
     rawMail = local +:+ "@" +:+ domain \/
     (exists rest, rawMail = local +:+ "@" +:+ domain +:+ "@" +:+ rest) ->
     rawTag = "" ->
     exists h,
       out = Normalize.toLowerCase B (local +:+ "+" +:+ h +:+ "@" +:+ domain) /\
       (deterministicFlag = false -> h = random)) /\
  (forall e,
     userEmail = Some e -> e <> "" -> Normalize.includes "@" e = false ->
     rawMail = "" -> rawTag = "" ->
     exists h,
       out = Normalize.toLowerCase B (e +:+ "+" +:+ h +:+ "@" +:+ "undefined")).
Proof.
  cbn zeta. split; [|split].
  - unfold Normalize.normalizeInputToAlias.
    repeat match goal with
    | |- context [if ?b then _ else _] => destruct b
    end;
    match goal with
    | |- exists l d, Normalize.toLowerCase B ?t = _ =>
        match t with
        | ?a +:+ "+" +:+ ?b +:+ "-" +:+ ?c +:+ "@" +:+ ?d =>
            exists (a +:+ "+" +:+ b +:+ "-" +:+ c), d
        | ?a +:+ "+" +:+ ?b +:+ "@" +:+ ?d => exists (a +:+ "+" +:+ b), d
        | ?a +:+ "-" +:+ ?b +:+ "@" +:+ ?d => exists (a +:+ "-" +:+ b), d
        | ?a +:+ "@" +:+ ?d => exists a, d
        end
    end;
    by rewrite ?string_app_assoc.
  - intros local domain Hl Hd Hraw Htag.
    unfold Normalize.normalizeInputToAlias. rewrite Htag. cbn [String.eqb].
    assert (Hinc : Normalize.includes "@"
                     (Normalize.toLowerCase B (Normalize.trim B mail)) = true)
      by (destruct Hraw as [-> | [rest ->]]; apply includes_app).
    assert (Hsplit : exists more,
              Normalize.split_at (Normalize.toLowerCase B (Normalize.trim B mail))
              = local :: domain :: more).
    { destruct Hraw as [-> | [rest ->]].
      - exists []. by rewrite (split_at_app _ _ Hl), (split_at_whole _ Hd).
      - exists (Normalize.split_at rest).
        by rewrite (split_at_app _ _ Hl), (split_at_app _ _ Hd). }
    destruct Hsplit as [more Hsplit]. rewrite Hinc, Hsplit. cbn.
    eexists. split; [reflexivity|]. by intros ->.
  - intros e -> He Hat Hraw Htag.
    unfold Normalize.normalizeInputToAlias. rewrite Hraw, Htag.
    assert (Heq : String.eqb e "" = false) by by apply String.eqb_neq.
    rewrite Heq. cbn. rewrite Heq, (split_at_whole _ Hat). cbn.
    by eexists.
Qed.

Lemma normalizeInputToAlias_shapes_witness :
  let B := Normalize.mkBuiltins (fun s => s) (fun s => s) (fun _ => "0a1b2c3d") in
  Normalize.normalizeInputToAlias B "k3j9x0qz" None None "me@shop.com@x" "" false
  = "me+k3j9x0qz@shop.com".
Proof.
  intros B.
  destruct (proj1 (proj2 (normalizeInputToAlias_shapes B "k3j9x0qz" None None
                            "me@shop.com@x" "" false))
              "me" "shop.com" eq_refl eq_refl
              (or_intror (ex_intro _ "x" eq_refl)) eq_refl) as [h [Hout Hh]].
  rewrite Hout, (Hh eq_refl). reflexivity.
Defined.

(** ** Track events and the stats interval *)

(** X19. The stats interval of a first track event is lost when a second one
    arrives.  Each track event with a stream starts an interval and stores
    its handle over the previous one without clearing it.  After two track
    events [stopStream] clears the second interval only: the first is still
    in the timer queue, with no reference to it left. *)
Theorem second_track_leaks_stats_interval (P1 P2 P3 : Platform) (h : nat)
    (stream1 stream2 : nat) (v : option nat) (s : State) :
  videoRef s = Some v ->
  reconnectTimeoutRef s = None ->
  let s1 := res_state (pc_ontrack P1 h (Some stream1) s) in
  let s2 := res_state (pc_ontrack P2 h (Some stream2) s1) in
  let s3 := res_state (stopStream P3 s2) in
  statsIntervalRef s1 = Some (nextTimer s) /\
  statsIntervalRef s2 = Some (S (nextTimer s)) /\
  statsIntervalRef s3 = None /\
  reconnectTimeoutRef s3 = None /\
  In (mkTimer (nextTimer s) (now P1 + 2000) 2000 true (CbStats h)) (timers s3) /\
  (forall t, In t (timers s3) -> t_handle t <> S (nextTimer s)).
Proof.
  unfold pc_ontrack, stopStream. unfold_js. destruct_state s. cbn.
  intros -> ->. cbn.
  assert (Hin : In (mkTimer s_nt (now P1 + 2000) 2000 true (CbStats h))
    (filter (fun t => t_handle t <> S s_nt)
       ((s_tm ++ [mkTimer s_nt (now P1 + 2000) 2000 true (CbStats h)])
        ++ [mkTimer (S s_nt) (now P2 + 2000) 2000 true (CbStats h)]))).
  { apply list_elem_of_In, list_elem_of_filter. split; [cbn; lia|].
    apply list_elem_of_In, in_or_app. left. apply in_or_app. right. by left. }
  assert (Hout : forall t,
    In t (filter (fun t => t_handle t <> S s_nt)
       ((s_tm ++ [mkTimer s_nt (now P1 + 2000) 2000 true (CbStats h)])
        ++ [mkTimer (S s_nt) (now P2 + 2000) 2000 true (CbStats h)])) ->
    t_handle t <> S s_nt).
  { intros t Ht%list_elem_of_In%list_elem_of_filter. tauto. }
  destruct s_dc as [d|], s_pc as [p|]; cbn; oracles P3; done.
Qed.

Lemma second_track_leaks_stats_interval_witness :
  In (mkTimer 1 2000 2000 true (CbStats 0))
     (timers (res_state (stopStream (calm 9000)
        (res_state (pc_ontrack (calm 10) 0 (Some 8%nat)
           (res_state (pc_ontrack (calm 0) 0 (Some 7%nat) mounted))))))).
Proof.
  exact (proj1 (proj2 (proj2 (proj2 (proj2
    (second_track_leaks_stats_interval (calm 0) (calm 10) (calm 9000) 0 7 8 None
       mounted eq_refl eq_refl)))))).
Defined.

(** ** The health check *)

(** X20. The health check and the stream.  [checkHealth] itself writes
    only the connectivity flag and one line of the debug log, and the flag
    is on exactly when the request succeeds with the status [healthy].  A
    result that leaves the flag as it is leaves the stream alone.  A result
    that changes it makes the stream effect run again: when the backend is
    found unhealthy while a session is streamed, the stream is torn down
    and [startStream] refuses with "Backend not connected"; when it is
    found healthy again, the stream of the selected session is started on
    a new connection. *)
Theorem health_flag_drives_stream (P : Platform) (r : Settled) (sessionId : string)
    (s : State) :
  let check := checkHealth r s in
  let res := health_settled P r (Some sessionId) s in
  let h := length (conns s) in
  (res_val check = Val tt /\
   set_isBackendConnected (isBackendConnected s) (res_state check) = s /\
   (forall e, In e (res_eff check) -> exists ty msg, e = EffLog ty msg) /\
   (isBackendConnected (res_state check) = true <->
    exists data, r = Fulfilled data /\ field data "status" = JStr "healthy")) /\
  (isBackendConnected (res_state check) = isBackendConnected s -> res = check) /\
  (sessionId <> "" -> isBackendConnected s = true ->
   isBackendConnected (res_state check) = false ->
   webrtcRef (res_state res) = mkWebRTC None None None 0 /\
   conns (res_state res) = conns s /\
   (forall d, dc (webrtcRef s) = Some d -> In (EffCloseDc d) (res_eff res)) /\
   In (EffToast ToastError "Backend not connected" JUndefined) (res_eff res)) /\
  (sessionId <> "" -> isBackendConnected s = false ->
   isBackendConnected (res_state check) = true ->
   In (EffCreateOffer h) (res_eff res) /\
   webrtcRef (res_state res) = mkWebRTC (Some h) (Some h) (Some sessionId) 0).
Proof.
  cbn zeta. rewrite checkHealth_spec. cbn [res_val res_state res_eff].
  destruct (flag_view (healthy r) s) as (Hb & _). rewrite Hb.
  split; [|split; [|split]].
  - split; [done|]. split; [by destruct_state s|]. split.
    + intros e [<-|[]]. destruct r; cbn; by eauto.
    + destruct r as [data|err]; cbn.
      * rewrite bool_decide_eq_true. split; [by eauto|].
        by intros (? & [= <-] & ?).
      * split; [done|]. by intros (? & ? & _).
  - intros Hsame. rewrite (health_settled_unchanged P r _ s Hsame).
    f_equal. rewrite Hsame. by destruct_state s.
  - intros Hsid Hon Hoff. by apply health_lost.
  - intros Hsid Hoff Hon.
    destruct (health_regained P r sessionId s Hoff Hon Hsid) as (He & Hw & _).
    by split.
Qed.

Lemma health_flag_drives_stream_witness :
  let s := fst (run [(calm 0, EvStartStream "s1"); (calm 300, EvDcOpen 0%nat)]
                  mounted) in
  let res := health_settled (calm 10000) (Fulfilled [("status", JStr "degraded")])
               (Some "s1") s in
  webrtcRef (res_state res) = mkWebRTC None None None 0 /\
  In (EffCloseDc 0) (res_eff res).
Proof.
  intros s res.
  destruct (proj1 (proj2 (proj2
              (health_flag_drives_stream (calm 10000)
                 (Fulfilled [("status", JStr "degraded")]) "s1" s)))
              ltac:(discriminate) eq_refl eq_refl) as (Hw & _ & Hd & _).
  split; [exact Hw | exact (Hd 0%nat eq_refl)].
Defined.

(** ** Two clicks in one millisecond *)

(** X21. The id of a click indicator is the time of the click, so two
    clicks within the same millisecond share it.  When the timeout of the
    first click fires, the indicators of both clicks are removed, and the
    timeout of the second click is still pending with nothing left to
    remove. *)
Theorem clicks_in_one_millisecond (P P' : Platform) (e1 e2 : ClickEvent) (d : nat)
    (s : State) :
  timers_known s ->
  dc (webrtcRef s) = Some d ->
  readyState P d = Open ->
  now P + 1000 <= now P' ->
  let id := "indicator-" +:+ pretty (now P) in
  let s1 := fst (step P (EvVideoClick e1) s) in
  let s2 := fst (step P (EvVideoClick e2) s1) in
  let s3 := fst (step P' (EvTimer (nextTimer s)) s2) in
  clickIndicators s2
    = clickIndicators s
      ++ [mkIndicator id (click_offsetX e1) (click_offsetY e1) (now P);
          mkIndicator id (click_offsetX e2) (click_offsetY e2) (now P)] /\
  clickIndicators s3 = filter (fun i => ci_id i <> id) (clickIndicators s) /\
  timers s3
    = timers s
      ++ [mkTimer (S (nextTimer s)) (now P + 1000) 1000 false (CbRemoveIndicator id)].
Proof.
  unfold timers_known, step, handler, handleVideoClick, fire, run_callback,
    remove_indicator.
  unfold_js. destruct_state s. cbn -[List.find].
  intros Hknown -> Hopen Hdue%Z.leb_le.
  destruct (decide (readyState P d <> Open)) as [Hn|_]; [done|].
  cbn -[List.find].
  destruct (decide (readyState P d <> Open)) as [Hn|_]; [done|].
  cbn -[List.find]. rewrite <- !app_assoc.
  rewrite (find_older s_tm _ s_nt s_nt Hknown (le_n _)). cbn -[Z.leb].
  rewrite bool_decide_eq_true_2 by done. cbn [t_due t_repeat t_cb].
  rewrite Hdue. cbn.
  rewrite !filter_app, !filter_cons, !filter_nil.
  rewrite (filter_older s_tm s_nt s_nt Hknown (le_n _)).
  rewrite !(decide_False (P := _ <> _)) by (cbn; tauto).
  rewrite decide_True by (cbn; lia).
  by rewrite !app_nil_r.
Qed.

Lemma clicks_in_one_millisecond_witness :
  let s := fst (run [(calm 0, EvStartStream "s1")] mounted) in
  let s1 := fst (step (calm 500) (EvVideoClick (mkClick 640 360 320 180 "abc")) s) in
  let s2 := fst (step (calm 500) (EvVideoClick (mkClick 642 360 321 180 "xyz")) s1) in
  clickIndicators (fst (step (calm 1500) (EvTimer 1%nat) s2)) = [].
Proof.
  intros s s1 s2.
  assert (Hk : timers_known s) by (intros t []).
  assert (Hdue : now (calm 500) + 1000 <= now (calm 1500)) by (cbn; lia).
  exact (proj1 (proj2 (clicks_in_one_millisecond (calm 500) (calm 1500)
           (mkClick 640 360 320 180 "abc") (mkClick 642 360 321 180 "xyz")
           0%nat s Hk eq_refl eq_refl Hdue))).
Defined.
